(** * Last.fm music data updater

    A shallow embedding of [scripts/update_music_data.py]: the script that
    queries the Last.fm web API five times, turns the answers into a list of
    display entries and dumps that list as [_data/music.yml].

    Python objects are embedded as the inductive type [value]; an exception
    is a [Raise] result; the process environment, the network, the file
    system, the console and the clock are fields of a [world] record which
    is threaded through the effectful functions. *)

From Stdlib Require Import ZArith String Ascii List Bool Lia.
From Stdlib Require Import DecimalString SpecFloat.
From Stdlib Require DecimalPos DecimalZ DecimalFacts.
Import ListNotations.
Local Open Scope list_scope.
Local Open Scope string_scope.

Set Warnings "-register-all".

(** ** Python objects *)

(** The objects the script handles: what [response.json()] can return and
    what the script builds for [yaml.dump].  A [str] is a sequence of code
    points below U+0100, one [ascii] each.  A [dict] keeps its insertion
    order; keys are [str] (JSON object keys always are), and in the list of
    fields the first binding of a key is the one the dict holds. *)
Inductive value : Type :=
| VNone
| VBool (b : bool)
| VInt (n : Z)
| VFloat (f : spec_float)
| VStr (s : string)
| VList (items : list value)
| VDict (fields : list (string * value)).

(** The exceptions that can escape the script. *)
Inductive exn : Type :=
| KeyError
| TypeError
| AttributeError
| ValueError
| OverflowError
| RequestException
| OSError.

Inductive result (A : Type) : Type :=
| Ok (a : A)
| Raise (e : exn).

Arguments Ok {A} a.
Arguments Raise {A} e.

Definition bind {A B : Type} (r : result A) (k : A -> result B) : result B :=
  match r with
  | Ok a => k a
  | Raise e => Raise e
  end.

Notation "'let*' x ':=' r 'in' k" := (bind r (fun x => k))
  (at level 10, x name, r at level 100, k at level 200).

Definition succeeds {A : Type} (r : result A) : Prop := exists a, r = Ok a.
Definition raises {A : Type} (r : result A) : Prop := exists e, r = Raise e.

(** ** Built-in operations *)

Fixpoint lookup (k : string) (d : list (string * value)) : option value :=
  match d with
  | [] => None
  | (k', v) :: d' => if String.eqb k k' then Some v else lookup k d'
  end.

(** [o.get(k, default)]: only a dict has the method. *)
Definition py_get (o : value) (k : string) (default : value) : result value :=
  match o with
  | VDict d => Ok (match lookup k d with Some v => v | None => default end)
  | _ => Raise AttributeError
  end.

(** [o[k]] for a string [k]: a missing key is a [KeyError]; a str or a
    list wants integer indices, the other objects are not subscriptable. *)
Definition py_getitem (o : value) (k : string) : result value :=
  match o with
  | VDict d =>
      match lookup k d with
      | Some v => Ok v
      | None => Raise KeyError
      end
  | _ => Raise TypeError
  end.

(** [bool(o)], as taken by [if o:]. *)
Definition truthy (o : value) : bool :=
  match o with
  | VNone => false
  | VBool b => b
  | VInt n => negb (n =? 0)%Z
  | VFloat (S754_zero _) => false
  | VFloat _ => true
  | VStr s => negb (s =? EmptyString)
  | VList [] => false
  | VList (_ :: _) => true
  | VDict [] => false
  | VDict (_ :: _) => true
  end.

(** What a [for] loop over [o] visits: the items of a list, the keys of a
    dict, the characters of a str. *)
Definition py_iter (o : value) : result (list value) :=
  match o with
  | VList l => Ok l
  | VDict d => Ok (map (fun kv => VStr (fst kv)) d)
  | VStr s => Ok (map (fun c => VStr (String c EmptyString)) (list_ascii_of_string s))
  | _ => Raise TypeError
  end.

(** [o[:n]].  A dict takes the slice as a key and fails (with TypeError
    for the unhashable slice; from Python 3.12 on, where a slice hashes,
    with KeyError). *)
Definition py_slice_to (n : nat) (o : value) : result value :=
  match o with
  | VList l => Ok (VList (firstn n l))
  | VStr s => Ok (VStr (substring 0 n s))
  | _ => Raise TypeError
  end.

(** *** [int(...)] *)

(** Blank characters for [int]: the C locale's [isspace] and the two
    Unicode spaces below U+0100 (NEL and NBSP), which [int] maps to a
    space before parsing. *)
Definition is_space (c : ascii) : bool :=
  let n := N_of_ascii c in
  ((9 <=? n) && (n <=? 13) || (n =? 32) || (n =? 133) || (n =? 160))%N.

Definition digit_val (c : ascii) : option Z :=
  let n := N_of_ascii c in
  if ((48 <=? n) && (n <=? 57))%N then Some (Z.of_N n - 48)%Z else None.

Fixpoint lstrip (s : string) : string :=
  match s with
  | String c r => if is_space c then lstrip r else s
  | EmptyString => s
  end.

Fixpoint all_space (s : string) : bool :=
  match s with
  | String c r => is_space c && all_space r
  | EmptyString => true
  end.

(** The digits after the first one; a single underscore may separate two
    digits.  Returns the number read and the unread rest. *)
Fixpoint more_digits (acc : Z) (s : string) : result (Z * string) :=
  match s with
  | String c r =>
      match digit_val c with
      | Some d => more_digits (10 * acc + d) r
      | None =>
          if Ascii.eqb c "_" then
            match r with
            | String c' r' =>
                match digit_val c' with
                | Some d => more_digits (10 * acc + d) r'
                | None => Raise ValueError
                end
            | EmptyString => Raise ValueError
            end
          else Ok (acc, s)
      end
  | EmptyString => Ok (acc, s)
  end.

(** The interpreter's cap on the number of digits of a conversion between
    int and decimal str ([sys.int_info.default_max_str_digits]); the
    script leaves it at its default. *)
Definition max_str_digits : N := 4300.

(** The number of digits in the run of digits and underscores that [s]
    starts with: what the cap is held against when a str is read. *)
Fixpoint scanned_digits (s : string) : nat :=
  match s with
  | String c r =>
      match digit_val c with
      | Some _ => S (scanned_digits r)
      | None => if Ascii.eqb c "_" then scanned_digits r else 0
      end
  | EmptyString => 0
  end.

Definition unsigned_literal (s : string) : result Z :=
  match s with
  | String c r =>
      match digit_val c with
      | Some d =>
          let* p := more_digits d r in
          if (max_str_digits <? N.of_nat (scanned_digits s))%N then Raise ValueError
          else if all_space (snd p) then Ok (fst p) else Raise ValueError
      | None => Raise ValueError
      end
  | EmptyString => Raise ValueError
  end.

(** [int(s)] for a str, base 10: blanks, a sign, digits (at most
    [max_str_digits] of them), blanks. *)
Definition int_of_str (s : string) : result Z :=
  match lstrip s with
  | String c r =>
      if Ascii.eqb c "+" then unsigned_literal r
      else if Ascii.eqb c "-" then let* n := unsigned_literal r in Ok (- n)%Z
      else unsigned_literal (String c r)
  | EmptyString => unsigned_literal EmptyString
  end.

(** [int(f)] for a float: truncation towards zero. *)
Definition int_of_float (f : spec_float) : result Z :=
  match f with
  | S754_zero _ => Ok 0%Z
  | S754_infinity _ => Raise OverflowError
  | S754_nan => Raise ValueError
  | S754_finite s m e =>
      let mag := Z.shiftl (Z.pos m) e in
      Ok (if s then (- mag)%Z else mag)
  end.

Definition py_int (o : value) : result Z :=
  match o with
  | VInt n => Ok n
  | VBool b => Ok (if b then 1 else 0)%Z
  | VFloat f => int_of_float f
  | VStr s => int_of_str s
  | VNone | VList _ | VDict _ => Raise TypeError
  end.

(** *** Formatting *)

(** The decimal writing of an int: what [str(n)] gives for an int within
    the cap. *)
Definition decimal (n : Z) : string := NilZero.string_of_int (Z.to_int n).

(** The number of digits of that writing. *)
Definition int_digits (n : Z) : nat := String.length (decimal (Z.abs n)).

(** A comma before every group of three digits counted from the right. *)
Fixpoint group_thousands (digits : string) : string :=
  match digits with
  | EmptyString => EmptyString
  | String c rest =>
      let n := String.length rest in
      if (0 <? n)%nat && (n mod 3 =? 0)%nat
      then String c (String "," (group_thousands rest))
      else String c (group_thousands rest)
  end.

(** The decimal writing with its digits grouped, behind the sign. *)
Definition format_comma (n : Z) : string :=
  if (n <? 0)%Z then "-" ++ group_thousands (decimal (- n))
  else group_thousands (decimal n).

(** [format(n, ",")]: an int of more digits than the cap is not converted. *)
Definition py_format_comma (n : Z) : result string :=
  if (max_str_digits <? N.of_nat (int_digits n))%N then Raise ValueError
  else Ok (format_comma n).

Fixpoint join (sep : string) (parts : list string) : string :=
  match parts with
  | [] => EmptyString
  | [p] => p
  | p :: rest => p ++ sep ++ join sep rest
  end.

(** What the script takes from outside its own code: the interpreter's
    [repr] of a float and of a str, and PyYAML's [dump] with the options
    of the call ([default_flow_style=False, allow_unicode=True,
    sort_keys=False]). *)
Class Library : Type := {
  float_repr : spec_float -> string;
  str_repr : string -> string;
  yaml_dump : value -> string
}.

Section Transformer.

Context {lib : Library}.

(** [repr(o)].  The ints of a decoded answer were read by the decoder with
    [int], so they are within the cap and [str] writes them. *)
Fixpoint py_repr (o : value) : string :=
  match o with
  | VNone => "None"
  | VBool true => "True"
  | VBool false => "False"
  | VInt n => decimal n
  | VFloat f => float_repr f
  | VStr s => str_repr s
  | VList l => "[" ++ join ", " (map py_repr l) ++ "]"
  | VDict d =>
      "{" ++ join ", " (map (fun kv => str_repr (fst kv) ++ ": " ++ py_repr (snd kv)) d) ++ "}"
  end.

(** [str(o)], which is also what a replacement field [{o}] of an f-string
    inserts. *)
Definition py_str (o : value) : string :=
  match o with
  | VStr s => s
  | _ => py_repr o
  end.

(** ** The script: number formatting *)

(** [format_number(num)]: [f"{int(num):,}"]. *)
Definition format_number (num : value) : result string :=
  let* n := py_int num in
  py_format_comma n.

(** ** The script: building the entries *)

(** [f"#{i+1}"], for the index [i] that [enumerate] hands out. *)
Definition rank (i : nat) : string := "#" ++ decimal (Z.of_nat i + 1).

(** One item of the "Top Artists" comprehension. *)
Definition artist_entry (i : nat) (artist : value) : result value :=
  let* name := py_getitem artist "name" in
  let* playcount := py_getitem artist "playcount" in
  let* plays := format_number playcount in
  let* url := py_get artist "url" (VStr EmptyString) in
  Ok (VDict [("key", VStr (rank i));
             ("value", VStr (py_str name ++ " (" ++ plays ++ " plays)"));
             ("url", url)]).

(** One item of the "Top Tracks" comprehension; "Top Albums" has the same
    body with [album] for [track]. *)
Definition track_entry (i : nat) (track : value) : result value :=
  let* name := py_getitem track "name" in
  let* artist := py_getitem track "artist" in
  let* artist_name := py_getitem artist "name" in
  let* url := py_get track "url" (VStr EmptyString) in
  Ok (VDict [("key", VStr (rank i));
             ("value", VStr (py_str name ++ " - " ++ py_str artist_name));
             ("url", url)]).

Definition album_entry (i : nat) (album : value) : result value :=
  track_entry i album.

(** The display string of a recent track:
    [f"{track['name']} - {track['artist'].get('#text', track['artist'])}"]. *)
Definition recent_display (track : value) : result string :=
  let* name := py_getitem track "name" in
  let* artist := py_getitem track "artist" in
  let* fallback := py_getitem track "artist" in
  let* text := py_get artist "#text" fallback in
  Ok (py_str name ++ " - " ++ py_str text).

(** One item of the "Recently Played" comprehension. *)
Definition recent_entry (i : nat) (track : value) : result value :=
  let* display := recent_display track in
  let* url := py_get track "url" (VStr EmptyString) in
  Ok (VDict [("key", VStr (rank i)); ("value", VStr display); ("url", url)]).

(** [[entry(i, x) for i, x in enumerate(items)]], counting from [i]. *)
Fixpoint enumerate_from (entry : nat -> value -> result value) (i : nat)
    (items : list value) : result (list value) :=
  match items with
  | [] => Ok []
  | x :: rest =>
      let* e := entry i x in
      let* es := enumerate_from entry (S i) rest in
      Ok (e :: es)
  end.

Definition comprehension (entry : nat -> value -> result value) (source : value)
    : result (list value) :=
  let* items := py_iter source in
  enumerate_from entry 0 items.

Definition category (name : string) (entries : list value) : value :=
  VDict [("key", VStr name); ("value", VList entries)].

(** The "Listening Statistics" dict. *)
Definition stats_entry (username : string) (user_info : value) : result value :=
  let* playcount := py_get user_info "playcount" (VInt 0) in
  let* scrobbles := format_number playcount in
  let* url := py_get user_info "url" (VStr ("https://www.last.fm/user/" ++ username)) in
  Ok (category "Listening Statistics"
        [VDict [("key", VStr "Total Scrobbles"); ("value", VStr scrobbles)];
         VDict [("key", VStr "Last.fm Profile"); ("value", VStr username); ("url", url)]]).

Definition return_link : value :=
  VDict [("key", VStr "return");
         ("value", VStr "previous page");
         ("url", VStr "https://jaimeum.github.io")].

(** [if source: music_data.append({"key": name, "value": [...]})]. *)
Definition append_category (name : string) (entry : nat -> value -> result value)
    (source : value) (music_data : list value) : result (list value) :=
  if truthy source then
    let* entries := comprehension entry source in
    Ok (music_data ++ [category name entries])%list
  else Ok music_data.

(** The values of the "Recently Played" category: the comprehension runs
    over [recent_tracks[:5]]. *)
Definition recent_entries (recent_tracks : value) : result (list value) :=
  let* first := py_slice_to 5 recent_tracks in
  comprehension recent_entry first.

(** The part of [generate_music_yaml] after the five fetches and before
    the dump: the list [music_data]. *)
Definition build_music_data (username : string)
    (user_info top_artists top_tracks top_albums recent_tracks : value)
    : result (list value) :=
  let music_data := [] in
  let* stats := stats_entry username user_info in
  let music_data := (music_data ++ [stats])%list in
  let* music_data := append_category "Top Artists" artist_entry top_artists music_data in
  let* music_data := append_category "Top Tracks" track_entry top_tracks music_data in
  let* music_data := append_category "Top Albums" album_entry top_albums music_data in
  let* music_data :=
    if truthy recent_tracks then
      let* entries := recent_entries recent_tracks in
      Ok (music_data ++ [category "Recently Played" entries])%list
    else Ok music_data in
  Ok (music_data ++ [return_link])%list.

End Transformer.

(** ** The world of a run *)

Record world : Type := {
  env_api_key : option string;   (* environment variable LASTFM_API_KEY *)
  env_username : option string;  (* environment variable LASTFM_USERNAME *)
  output_path : string;          (* <directory of the script>/../_data/music.yml, normalised *)
  remote : list (string * value) -> result value;
                                 (* the decoded answer to a GET with these query
                                    parameters, or the failure of the request *)
  sent : list (list (string * value));   (* the requests made so far *)
  files : string -> option string;       (* file contents by path *)
  can_open : string -> bool;             (* whether a path opens for writing *)
  disk_room : option nat;                (* characters a write can store; None: no limit *)
  stdout : list string;                  (* lines printed so far *)
  now : string                           (* the clock, as "%Y-%m-%d %H:%M:%S" *)
}.

Definition with_sent (w : world) (s : list (list (string * value))) : world :=
  {| env_api_key := env_api_key w; env_username := env_username w;
     output_path := output_path w; remote := remote w; sent := s;
     files := files w; can_open := can_open w; disk_room := disk_room w;
     stdout := stdout w; now := now w |}.

Definition with_files (w : world) (f : string -> option string) : world :=
  {| env_api_key := env_api_key w; env_username := env_username w;
     output_path := output_path w; remote := remote w; sent := sent w;
     files := f; can_open := can_open w; disk_room := disk_room w;
     stdout := stdout w; now := now w |}.

Definition with_stdout (w : world) (o : list string) : world :=
  {| env_api_key := env_api_key w; env_username := env_username w;
     output_path := output_path w; remote := remote w; sent := sent w;
     files := files w; can_open := can_open w; disk_room := disk_room w;
     stdout := o; now := now w |}.

(** Effectful code: a result and the world it leaves, also when it raises. *)
Definition io (A : Type) : Type := world -> result A * world.

Definition ret {A : Type} (a : A) : io A := fun w => (Ok a, w).

Definition lift {A : Type} (r : result A) : io A := fun w => (r, w).

Definition io_bind {A B : Type} (m : io A) (k : A -> io B) : io B :=
  fun w =>
    match m w with
    | (Ok a, w') => k a w'
    | (Raise e, w') => (Raise e, w')
    end.

Notation "x <- m ;; k" := (io_bind m (fun x => k))
  (at level 61, m at next level, right associativity).
Notation "m ;;; k" := (io_bind m (fun _ => k))
  (at level 61, right associativity).

Definition print (line : string) : io unit :=
  fun w => (Ok tt, with_stdout w (stdout w ++ [line])%list).

(** The module-level constants, read from the environment. *)
Definition LASTFM_API_KEY (w : world) : value :=
  match env_api_key w with
  | Some k => VStr k
  | None => VNone
  end.

Definition LASTFM_USERNAME (w : world) : string :=
  match env_username w with
  | Some u => u
  | None => "jaimeum19"
  end.

(** ** The script: API client *)

(** [d[k] = v]: a key the dict has keeps its place. *)
Fixpoint dict_set (k : string) (v : value) (d : list (string * value))
    : list (string * value) :=
  match d with
  | [] => [(k, v)]
  | (k', v') :: d' =>
      if String.eqb k k' then (k', v) :: d' else (k', v') :: dict_set k v d'
  end.

Definition dict_update (d new : list (string * value)) : list (string * value) :=
  fold_left (fun acc kv => dict_set (fst kv) (snd kv) acc) new d.

(** [api_call(method, **params)]: one GET to [BASE_URL] with the query
    [params]; a failed request, an error status and an undecodable body
    all raise.  A keyword argument named [method] clashes with the first
    parameter: the call raises before the body runs. *)
Definition api_call (method : string) (params : list (string * value)) : io value :=
  fun w =>
    match lookup "method" params with
    | Some _ => (Raise TypeError, w)
    | None =>
        let params :=
          dict_update params
            [("method", VStr method); ("api_key", LASTFM_API_KEY w);
             ("format", VStr "json")] in
        (remote w params, with_sent w (sent w ++ [params])%list)
    end.

Definition get_user_info (username : string) : io value :=
  data <- api_call "user.getinfo" [("user", VStr username)] ;;
  lift (py_get data "user" (VDict [])).

(** [data.get(outer, {}).get(inner, [])]. *)
Definition unwrap (data : value) (outer inner : string) : result value :=
  let* section := py_get data outer (VDict []) in
  py_get section inner (VList []).

Definition get_top_artists (username period : string) (limit : Z) : io value :=
  data <- api_call "user.gettopartists"
            [("user", VStr username); ("period", VStr period); ("limit", VInt limit)] ;;
  lift (unwrap data "topartists" "artist").

Definition get_top_tracks (username period : string) (limit : Z) : io value :=
  data <- api_call "user.gettoptracks"
            [("user", VStr username); ("period", VStr period); ("limit", VInt limit)] ;;
  lift (unwrap data "toptracks" "track").

Definition get_top_albums (username period : string) (limit : Z) : io value :=
  data <- api_call "user.gettopalbums"
            [("user", VStr username); ("period", VStr period); ("limit", VInt limit)] ;;
  lift (unwrap data "topalbums" "album").

Definition get_recent_tracks (username : string) (limit : Z) : io value :=
  data <- api_call "user.getrecenttracks"
            [("user", VStr username); ("limit", VInt limit)] ;;
  lift (unwrap data "recenttracks" "track").

(** ** The script: document generation and [main] *)

Section Run.

Context {lib : Library}.

Definition generate_music_yaml (username : string) : io string :=
  print ("Fetching data for user: " ++ username) ;;;
  user_info <- get_user_info username ;;
  top_artists <- get_top_artists username "overall" 5 ;;
  top_tracks <- get_top_tracks username "overall" 5 ;;
  top_albums <- get_top_albums username "overall" 5 ;;
  recent_tracks <- get_recent_tracks username 5 ;;
  music_data <- lift (build_music_data username user_info top_artists top_tracks
                        top_albums recent_tracks) ;;
  ret (yaml_dump (VList music_data)).

Definition set_file (path content : string) (w : world) : world :=
  with_files w (fun p => if String.eqb p path then Some content else files w p).

(** [with open(path, "w", encoding="utf-8") as f: f.write(content)].
    Opening empties the file; a write that runs out of room leaves what
    fitted and raises. *)
Definition write_text (path content : string) : io unit :=
  fun w =>
    if can_open w path then
      match disk_room w with
      | Some room =>
          if (String.length content <=? room)%nat
          then (Ok tt, set_file path content w)
          else (Raise OSError, set_file path (substring 0 room content) w)
      | None => (Ok tt, set_file path content w)
      end
    else (Raise OSError, w).

Definition main : io Z :=
  fun w =>
    if negb (truthy (LASTFM_API_KEY w)) then
      (print "Error: LASTFM_API_KEY environment variable is not set." ;;;
       print "Get an API key at: https://www.last.fm/api/account/create" ;;;
       ret 1%Z) w
    else
      (yaml_content <- generate_music_yaml (LASTFM_USERNAME w) ;;
       write_text (output_path w) yaml_content ;;;
       print ("Successfully updated " ++ output_path w) ;;;
       print ("Last updated: " ++ now w) ;;;
       ret 0%Z) w.

(** [exit(main())]: the status of the process and the world it leaves.  An
    exception that escapes [main] ends the process with status 1. *)
Definition run (w : world) : Z * world :=
  match main w with
  | (Ok status, w') => (status, w')
  | (Raise _, w') => (1%Z, w')
  end.

End Run.

(** ** Vocabulary of the properties *)

(** The ["key"] of an entry of the document. *)
Definition entry_key (e : value) : option value :=
  match e with
  | VDict d => lookup "key" d
  | _ => None
  end.

Definition keyed (names : list string) : list (option value) :=
  map (fun k => Some (VStr k)) names.


(** What the five fetches of a run hand to the transformer. *)
Record sources : Type := {
  user_info : value;
  top_artists : value;
  top_tracks : value;
  top_albums : value;
  recent_tracks : value
}.

(** The query of [api_call(method, **params)] and the decoded answer of
    the service to it. *)
Definition query (w : world) (method : string) (params : list (string * value))
    : list (string * value) :=
  dict_update params
    [("method", VStr method); ("api_key", LASTFM_API_KEY w); ("format", VStr "json")].

Definition answer (w : world) (method : string) (params : list (string * value))
    : result value :=
  remote w (query w method params).

Definition fetch_user_info (w : world) (username : string) : result value :=
  let* data := answer w "user.getinfo" [("user", VStr username)] in
  py_get data "user" (VDict []).

Definition fetch_top (w : world) (username method outer inner : string) : result value :=
  let* data := answer w method
                 [("user", VStr username); ("period", VStr "overall"); ("limit", VInt 5)] in
  unwrap data outer inner.

Definition fetch_recent (w : world) (username : string) : result value :=
  let* data := answer w "user.getrecenttracks"
                 [("user", VStr username); ("limit", VInt 5)] in
  unwrap data "recenttracks" "track".

Definition fetched (w : world) (username : string) : result sources :=
  let* ui := fetch_user_info w username in
  let* ta := fetch_top w username "user.gettopartists" "topartists" "artist" in
  let* tt := fetch_top w username "user.gettoptracks" "toptracks" "track" in
  let* tal := fetch_top w username "user.gettopalbums" "topalbums" "album" in
  let* rt := fetch_recent w username in
  Ok {| user_info := ui; top_artists := ta; top_tracks := tt; top_albums := tal;
        recent_tracks := rt |}.

(** The number that a sequence of decimal digits continues from [acc]. *)
Fixpoint uint_value (acc : Z) (d : Decimal.uint) : Z :=
  match d with
  | Decimal.Nil => acc
  | Decimal.D0 l => uint_value (10 * acc + 0) l
  | Decimal.D1 l => uint_value (10 * acc + 1) l
  | Decimal.D2 l => uint_value (10 * acc + 2) l
  | Decimal.D3 l => uint_value (10 * acc + 3) l
  | Decimal.D4 l => uint_value (10 * acc + 4) l
  | Decimal.D5 l => uint_value (10 * acc + 5) l
  | Decimal.D6 l => uint_value (10 * acc + 6) l
  | Decimal.D7 l => uint_value (10 * acc + 7) l
  | Decimal.D8 l => uint_value (10 * acc + 8) l
  | Decimal.D9 l => uint_value (10 * acc + 9) l
  end%Z.

(** The character of a decimal digit. *)
Definition digit_char (k : Z) : ascii := ascii_of_N (48 + Z.to_N k).

(** A number below 1000 on three digits. *)
Definition three_digits (r : Z) : string :=
  String (digit_char (r / 100))
    (String (digit_char (r / 10 mod 10)) (String (digit_char (r mod 10)) EmptyString)).

Definition digit_uint (k : Z) (rest : Decimal.uint) : Decimal.uint :=
  match k with
  | 0 => Decimal.D0 rest
  | 1 => Decimal.D1 rest
  | 2 => Decimal.D2 rest
  | 3 => Decimal.D3 rest
  | 4 => Decimal.D4 rest
  | 5 => Decimal.D5 rest
  | 6 => Decimal.D6 rest
  | 7 => Decimal.D7 rest
  | 8 => Decimal.D8 rest
  | _ => Decimal.D9 rest
  end%Z.

Fixpoint uint_app (d d' : Decimal.uint) : Decimal.uint :=
  match d with
  | Decimal.Nil => d'
  | Decimal.D0 l => Decimal.D0 (uint_app l d')
  | Decimal.D1 l => Decimal.D1 (uint_app l d')
  | Decimal.D2 l => Decimal.D2 (uint_app l d')
  | Decimal.D3 l => Decimal.D3 (uint_app l d')
  | Decimal.D4 l => Decimal.D4 (uint_app l d')
  | Decimal.D5 l => Decimal.D5 (uint_app l d')
  | Decimal.D6 l => Decimal.D6 (uint_app l d')
  | Decimal.D7 l => Decimal.D7 (uint_app l d')
  | Decimal.D8 l => Decimal.D8 (uint_app l d')
  | Decimal.D9 l => Decimal.D9 (uint_app l d')
  end.

(** Whether [k] and [-k] format as their plain decimal writing. *)
Definition formats_plainly (k : nat) : bool :=
  match format_number (VInt (Z.of_nat k)), format_number (VInt (- Z.of_nat k)) with
  | Ok s, Ok t =>
      String.eqb s (decimal (Z.of_nat k)) && String.eqb t (decimal (- Z.of_nat k))
  | _, _ => false
  end.

(** *** Integer literals

    What [int] reads from a str, as a grammar: blanks, an optional sign,
    decimal digits of which two neighbours may be separated by one
    underscore, blanks. *)

Definition digit (c : ascii) : bool :=
  existsb (Ascii.eqb c) (list_ascii_of_string "0123456789").

(** Space, tab, line feed, vertical tab, form feed, carriage return, next
    line, no-break space. *)
Definition blank (c : ascii) : bool :=
  existsb (Ascii.eqb c) [" "; "009"; "010"; "011"; "012"; "013"; "133"; "160"]%char.

Definition blanks (s : string) : Prop :=
  forall c, In c (list_ascii_of_string s) -> blank c = true.

Inductive digits : string -> Prop :=
| digits_one (c : ascii) :
    digit c = true -> digits (String c EmptyString)
| digits_next (c : ascii) (s : string) :
    digit c = true -> digits s -> digits (String c s)
| digits_sep (c : ascii) (s : string) :
    digit c = true -> digits s -> digits (String c (String "_" s)).

Definition int_literal (s : string) : Prop :=
  exists pre sign body post,
    s = pre ++ sign ++ body ++ post
    /\ blanks pre
    /\ (sign = EmptyString \/ sign = "+" \/ sign = "-")
    /\ digits body
    /\ blanks post.

(** The objects that stand for an integer: an int, a bool, a finite
    float, a str holding an integer literal. *)
Definition integer_like (v : value) : Prop :=
  match v with
  | VInt _ | VBool _ => True
  | VFloat (S754_zero _) | VFloat (S754_finite _ _ _) => True
  | VFloat _ => False
  | VStr s => int_literal s
  | VNone | VList _ | VDict _ => False
  end.

(** The objects that [format_number] is handed when the sources are
    mappings and lists of mappings: the play count of the user and the
    play count of every top artist. *)
Definition count_of (src : sources) (v : value) : Prop :=
  (exists fields,
      user_info src = VDict fields /\ lookup "playcount" fields = Some v)
  \/ (exists items fields,
         top_artists src = VList items /\ In (VDict fields) items
         /\ lookup "playcount" fields = Some v).



(** What one conditional [append] adds to [music_data]. *)
Definition section_for (name : string) (entries : result (list value)) (source : value)
    (part : list value) : Prop :=
  if truthy source
  then exists es, entries = Ok es /\ part = [category name es]
  else part = [].

Section Document.

Context {lib : Library}.

(** The document of a run: [music_data] as a function of the answers. *)
Definition document (w : world) (username : string) : result (list value) :=
  let* s := fetched w username in
  build_music_data username (user_info s) (top_artists s) (top_tracks s)
    (top_albums s) (recent_tracks s).

End Document.

(** A stand-in for the interpreter and PyYAML, and a world with an
    account that has something to show in every category, to run the
    script on. *)
Definition sample_library : Library :=
  {| float_repr := fun _ => "0.0";
     str_repr := fun s => "'" ++ s ++ "'";
     yaml_dump := fun v =>
       py_repr (lib := {| float_repr := fun _ => "0.0";
                          str_repr := fun s => "'" ++ s ++ "'";
                          yaml_dump := fun _ => EmptyString |}) v |}.

Definition sample_artist (name playcount : string) : value :=
  VDict [("name", VStr name); ("playcount", VStr playcount);
         ("url", VStr ("https://www.last.fm/music/" ++ name))].

Definition sample_track (name artist : string) : value :=
  VDict [("name", VStr name);
         ("artist", VDict [("name", VStr artist); ("#text", VStr artist)]);
         ("url", VStr ("https://www.last.fm/music/" ++ artist ++ "/_/" ++ name))].

Definition sample_remote (q : list (string * value)) : result value :=
  match lookup "method" q with
  | Some (VStr "user.getinfo") =>
      Ok (VDict [("user", VDict [("name", VStr "jaimeum19"); ("playcount", VStr "1234567")])])
  | Some (VStr "user.gettopartists") =>
      Ok (VDict [("topartists",
                  VDict [("artist", VList [sample_artist "Low" "4321"; sample_artist "Can" "99"])])])
  | Some (VStr "user.gettoptracks") =>
      Ok (VDict [("toptracks", VDict [("track", VList [sample_track "Lullaby" "Low"])])])
  | Some (VStr "user.gettopalbums") =>
      Ok (VDict [("topalbums", VDict [("album", VList [])])])
  | Some (VStr "user.getrecenttracks") =>
      Ok (VDict [("recenttracks",
                  VDict [("track", VList [sample_track "Vitamin C" "Can";
                                          sample_track "Words" "Low"])])])
  | _ => Raise RequestException
  end.

Definition sample_world_at (key : option string)
    (service : list (string * value) -> result value) (clock : string)
    (previous : option string) : world :=
  {| env_api_key := key;
     env_username := None;
     output_path := "_data/music.yml";
     remote := service;
     sent := [];
     files := fun p => if String.eqb p "_data/music.yml" then previous else None;
     can_open := fun _ => true;
     disk_room := None;
     stdout := [];
     now := clock |}.

Definition sample_key : string := "0123456789abcdef".

Definition sample_world : world :=
  sample_world_at (Some sample_key) sample_remote "2024-05-01 12:00:00" (Some "old").


Definition uncounted_remote (q : list (string * value)) : result value :=
  Ok (VDict [("user", VDict [("name", VStr "jaimeum19"); ("playcount", VStr "n/a")])]).


(** Eight recent tracks. *)
Definition sample_recent : list value :=
  [sample_track "Vitamin C" "Can"; sample_track "Words" "Low";
   sample_track "Halleluhwah" "Can"; sample_track "Lullaby" "Low";
   sample_track "Spoon" "Can"; sample_track "Sea" "Low";
   sample_track "Oh Yeah" "Can"; sample_track "Cut" "Low"].

(** ** Vocabulary of the further properties *)

(** The five queries of a run, in the order the script sends them. *)
Definition run_queries (w : world) (username : string) : list (list (string * value)) :=
  [[("user", VStr username);
    ("method", VStr "user.getinfo"); ("api_key", LASTFM_API_KEY w); ("format", VStr "json")];
   [("user", VStr username); ("period", VStr "overall"); ("limit", VInt 5);
    ("method", VStr "user.gettopartists"); ("api_key", LASTFM_API_KEY w);
    ("format", VStr "json")];
   [("user", VStr username); ("period", VStr "overall"); ("limit", VInt 5);
    ("method", VStr "user.gettoptracks"); ("api_key", LASTFM_API_KEY w);
    ("format", VStr "json")];
   [("user", VStr username); ("period", VStr "overall"); ("limit", VInt 5);
    ("method", VStr "user.gettopalbums"); ("api_key", LASTFM_API_KEY w);
    ("format", VStr "json")];
   [("user", VStr username); ("limit", VInt 5);
    ("method", VStr "user.getrecenttracks"); ("api_key", LASTFM_API_KEY w);
    ("format", VStr "json")]].

(** What the five fetches of a run return, in that order. *)
Definition fetch_results (w : world) (username : string) : list (result value) :=
  [fetch_user_info w username;
   fetch_top w username "user.gettopartists" "topartists" "artist";
   fetch_top w username "user.gettoptracks" "toptracks" "track";
   fetch_top w username "user.gettopalbums" "topalbums" "album";
   fetch_recent w username].

(** The fetches up to and including the first that raises. *)
Fixpoint attempted (rs : list (result value)) : nat :=
  match rs with
  | [] => 0
  | Ok _ :: rest => S (attempted rest)
  | Raise _ :: _ => 1
  end.

(** A string without its commas. *)
Fixpoint strip_commas (s : string) : string :=
  match s with
  | EmptyString => EmptyString
  | String c r => if Ascii.eqb c "," then strip_commas r else String c (strip_commas r)
  end.

(** An entry of a category: a rank, a display string and a link. *)
Definition leaf_entry (e : value) : Prop :=
  exists k v u, e = VDict [("key", VStr k); ("value", VStr v); ("url", u)].


(** A service that fails on the request for the top tracks. *)
Definition failing_remote (q : list (string * value)) : result value :=
  match lookup "method" q with
  | Some (VStr "user.gettoptracks") => Raise RequestException
  | _ => sample_remote q
  end.

(** The dict that an entry function builds at index [i]. *)
Definition ranked_leaf (i : nat) (e : value) : Prop :=
  exists v u, e = VDict [("key", VStr (rank i)); ("value", VStr v); ("url", u)].

(** Eight recent tracks of which only the first five are well formed. *)
Definition ragged_recent : list value :=
  (firstn 5 sample_recent ++ [VNone; VStr "?"; VDict []])%list.

Section Properties.
Context {lib : Library}.


(** ** Results *)

Lemma bind_ok_inv {A B : Type} (r : result A) (k : A -> result B) (b : B) :
  bind r k = Ok b -> exists a, r = Ok a /\ k a = Ok b.
Proof. destruct r as [a|e]; simpl; intros H; [exists a; auto | discriminate]. Qed.


(** ** Integer literals *)

Lemma digit_val_digit (c : ascii) :
  digit c = match digit_val c with Some _ => true | None => false end.
Proof. destruct c as [[] [] [] [] [] [] [] []]; reflexivity. Qed.

Lemma is_space_blank (c : ascii) : is_space c = blank c.
Proof. destruct c as [[] [] [] [] [] [] [] []]; reflexivity. Qed.

Lemma digit_not_special (c : ascii) :
  digit c = true ->
  blank c = false /\ Ascii.eqb c "+" = false /\ Ascii.eqb c "-" = false.
Proof. destruct c as [[] [] [] [] [] [] [] []]; vm_compute; intuition discriminate. Qed.

Lemma blank_not_special (c : ascii) :
  blank c = true -> digit_val c = None /\ Ascii.eqb c "_" = false.
Proof. destruct c as [[] [] [] [] [] [] [] []]; vm_compute; intuition discriminate. Qed.

Lemma digit_val_some (c : ascii) :
  digit c = true -> exists d, digit_val c = Some d.
Proof.
  rewrite digit_val_digit. destruct (digit_val c) as [d|]; [eauto | discriminate].
Qed.

Lemma blanks_nil : blanks EmptyString.
Proof. intros c []. Qed.

Lemma blanks_cons (c : ascii) (s : string) :
  blanks (String c s) <-> blank c = true /\ blanks s.
Proof.
  unfold blanks. simpl. split.
  - intros H. split; [apply H; now left | intros x Hx; apply H; now right].
  - intros [Hc Hs] x [<- | Hx]; auto.
Qed.

Lemma all_space_blanks (s : string) : all_space s = true <-> blanks s.
Proof.
  induction s as [|c s IH]; simpl.
  - split; [intros _; apply blanks_nil | reflexivity].
  - rewrite blanks_cons, andb_true_iff, IH, is_space_blank. reflexivity.
Qed.

Lemma lstrip_split (s : string) : exists pre, s = pre ++ lstrip s /\ blanks pre.
Proof.
  induction s as [|c s (pre & E & B)]; simpl.
  - exists EmptyString. split; [reflexivity | apply blanks_nil].
  - destruct (is_space c) eqn:C.
    + exists (String c pre). split; [simpl; now rewrite <- E|].
      apply blanks_cons. now rewrite <- is_space_blank.
    + exists EmptyString. split; [reflexivity | apply blanks_nil].
Qed.

Lemma lstrip_blanks (pre t : string) : blanks pre -> lstrip (pre ++ t) = lstrip t.
Proof.
  induction pre as [|c pre IH]; simpl; intros B; [reflexivity|].
  apply blanks_cons in B. destruct B as [Bc B].
  rewrite is_space_blank, Bc. auto.
Qed.

(** Whatever [more_digits] consumes continues a run of digits. *)
Lemma more_digits_sound (n : nat) :
  forall (r : string) (acc v : Z) (rest : string),
    (String.length r <= n)%nat ->
    more_digits acc r = Ok (v, rest) ->
    exists body, r = body ++ rest
                 /\ forall c, digit c = true -> digits (String c body).
Proof.
  induction n as [|n IH]; intros r acc v rest L H.
  - destruct r; [|simpl in L; lia]. simpl in H. injection H as <- <-.
    exists EmptyString. split; [reflexivity | intros c Hc; now constructor].
  - destruct r as [|c1 r1].
    + simpl in H. injection H as <- <-.
      exists EmptyString. split; [reflexivity | intros c Hc; now constructor].
    + simpl in H, L. destruct (digit_val c1) as [d|] eqn:D.
      * apply IH in H; [|lia]. destruct H as (body & -> & Hb).
        exists (String c1 body). split; [reflexivity|].
        intros c Hc. apply digits_next; [assumption|]. apply Hb.
        rewrite digit_val_digit, D. reflexivity.
      * destruct (Ascii.eqb_spec c1 "_") as [->|N].
        -- destruct r1 as [|c2 r2]; [discriminate|].
           destruct (digit_val c2) as [d|] eqn:D2; [|discriminate].
           simpl in L. apply IH in H; [|lia]. destruct H as (body & -> & Hb).
           exists (String "_" (String c2 body)). split; [reflexivity|].
           intros c Hc. apply digits_sep; [assumption|]. apply Hb.
           rewrite digit_val_digit, D2. reflexivity.
        -- injection H as <- <-.
           exists EmptyString. split; [reflexivity | intros c Hc; now constructor].
Qed.

Lemma unsigned_literal_sound (t : string) (n : Z) :
  unsigned_literal t = Ok n ->
  exists body post, t = body ++ post /\ digits body /\ blanks post.
Proof.
  unfold unsigned_literal. destruct t as [|c r]; [discriminate|].
  destruct (digit_val c) as [d|] eqn:D; [|discriminate].
  intros H. apply bind_ok_inv in H. destruct H as ([v rest] & M & H).
  destruct (max_str_digits <? _)%N; [discriminate|].
  cbn [snd fst] in H. destruct (all_space rest) eqn:S; [|discriminate].
  apply (more_digits_sound (String.length r)) in M; [|lia].
  destruct M as (body & -> & Hb).
  exists (String c body), rest. repeat split.
  - apply Hb. rewrite digit_val_digit, D. reflexivity.
  - now apply all_space_blanks.
Qed.

Lemma int_of_str_sound (s : string) (n : Z) : int_of_str s = Ok n -> int_literal s.
Proof.
  unfold int_of_str, int_literal. intros H.
  destruct (lstrip_split s) as (pre & E & B).
  destruct (lstrip s) as [|c r].
  - discriminate.
  - destruct (Ascii.eqb_spec c "+") as [->|Np].
    + apply unsigned_literal_sound in H. destruct H as (body & post & -> & Hb & Hp).
      exists pre, "+", body, post. auto 6.
    + destruct (Ascii.eqb_spec c "-") as [->|Nm].
      * apply bind_ok_inv in H. destruct H as (m & H & _).
        apply unsigned_literal_sound in H. destruct H as (body & post & -> & Hb & Hp).
        exists pre, "-", body, post. auto 7.
      * apply unsigned_literal_sound in H. destruct H as (body & post & E' & Hb & Hp).
        exists pre, EmptyString, body, post. rewrite E, E'. auto 6.
Qed.

(** A run of digits followed by blanks is read to its end. *)
Lemma more_digits_complete (body : string) :
  digits body ->
  forall post, blanks post ->
    exists c b, body = String c b /\ digit c = true
                /\ forall acc, exists v, more_digits acc (b ++ post) = Ok (v, post).
Proof.
  induction 1 as [c Hc | c s Hc Hs IH | c s Hc Hs IH]; intros post Hp.
  - exists c, EmptyString. repeat split; [assumption|]. intros acc. exists acc. simpl.
    destruct post as [|p q]; [reflexivity|].
    apply blanks_cons in Hp. destruct Hp as [Hb _].
    apply blank_not_special in Hb. destruct Hb as [D U].
    simpl. now rewrite D, U.
  - destruct (IH post Hp) as (c' & b' & -> & Hc' & M).
    exists c, (String c' b'). repeat split; [assumption|]. intros acc.
    destruct (digit_val_some c' Hc') as (d & D). simpl. rewrite D. apply M.
  - destruct (IH post Hp) as (c' & b' & -> & Hc' & M).
    exists c, (String "_" (String c' b')). repeat split; [assumption|]. intros acc.
    destruct (digit_val_some c' Hc') as (d & D). simpl. rewrite D. apply M.
Qed.

Lemma scanned_digits_le_length (s : string) :
  (scanned_digits s <= String.length s)%nat.
Proof.
  induction s as [|c s IH]; simpl; [lia|].
  destruct (digit_val c); [lia|]. destruct (Ascii.eqb c "_"); lia.
Qed.

Lemma length_suffix (a b : string) :
  (String.length b <= String.length (a ++ b))%nat.
Proof. induction a as [|c a IH]; simpl; lia. Qed.

Lemma unsigned_literal_complete (body post : string) :
  digits body -> blanks post ->
  (N.of_nat (scanned_digits (body ++ post)) <= max_str_digits)%N ->
  succeeds (unsigned_literal (body ++ post)).
Proof.
  intros Hb Hp Cap.
  destruct (more_digits_complete body Hb post Hp) as (c & b & -> & Hc & M).
  destruct (digit_val_some c Hc) as (d & D). destruct (M d) as (v & E).
  change (String c b ++ post)%string with (String c (b ++ post)) in *.
  unfold unsigned_literal. rewrite D, E. cbn [bind snd fst].
  apply N.ltb_ge in Cap. rewrite Cap.
  apply all_space_blanks in Hp. rewrite Hp. now exists v.
Qed.

Lemma int_of_str_complete (s : string) :
  int_literal s ->
  (N.of_nat (String.length s) <= max_str_digits)%N ->
  succeeds (int_of_str s).
Proof.
  intros (pre & sign & body & post & -> & Bpre & Hsign & Hb & Hp) Cap.
  assert (Cap' : (N.of_nat (scanned_digits (body ++ post)) <= max_str_digits)%N).
  { pose proof (scanned_digits_le_length (body ++ post)).
    pose proof (length_suffix sign (body ++ post)).
    pose proof (length_suffix pre (sign ++ body ++ post)). lia. }
  unfold int_of_str. rewrite lstrip_blanks by assumption.
  pose proof (unsigned_literal_complete body post Hb Hp Cap') as (v & U).
  destruct (more_digits_complete body Hb post Hp) as (c & b & E & Hc & _).
  destruct (digit_not_special c Hc) as (Nb & Np & Nm).
  destruct Hsign as [-> | [-> | ->]].
  - change (EmptyString ++ body ++ post)%string with (body ++ post)%string.
    rewrite E in *.
    change (String c b ++ post)%string with (String c (b ++ post)) in *.
    cbn [lstrip]. rewrite is_space_blank, Nb, Np, Nm. now exists v.
  - change ("+" ++ body ++ post)%string with (String "+" (body ++ post)).
    cbn [lstrip]. change (is_space "+") with false. cbv iota.
    change (Ascii.eqb "+" "+") with true. cbv iota. now exists v.
  - change ("-" ++ body ++ post)%string with (String "-" (body ++ post)).
    cbn [lstrip]. change (is_space "-") with false. cbv iota.
    change (Ascii.eqb "-" "+") with false. change (Ascii.eqb "-" "-") with true.
    cbv iota. rewrite U. now exists (- v)%Z.
Qed.

Lemma format_number_raises (v : value) : ~ integer_like v -> raises (format_number v).
Proof.
  unfold format_number. intros H. destruct (py_int v) as [n|e] eqn:E.
  - exfalso. apply H. destruct v as [| b | m | f | s | l | d]; simpl in *;
      try discriminate; try exact I.
    + destruct f; simpl in E; try discriminate; exact I.
    + eapply int_of_str_sound; eassumption.
  - exists e. reflexivity.
Qed.

(** ** Entries *)






Lemma build_music_data_intro (u : string) (ui ta tt tal rt stats : value)
    (A T L R : list value) :
  stats_entry u ui = Ok stats ->
  section_for "Top Artists" (comprehension artist_entry ta) ta A ->
  section_for "Top Tracks" (comprehension track_entry tt) tt T ->
  section_for "Top Albums" (comprehension album_entry tal) tal L ->
  section_for "Recently Played" (recent_entries rt) rt R ->
  build_music_data u ui ta tt tal rt
  = Ok ([stats] ++ A ++ T ++ L ++ R ++ [return_link])%list.
Proof.
  unfold build_music_data, append_category, section_for.
  intros -> HA HT HL HR. simpl bind.
  destruct (truthy ta); [destruct HA as (? & -> & ->) | subst A];
  destruct (truthy tt); [destruct HT as (? & -> & ->) | subst T | destruct HT as (? & -> & ->) | subst T];
  (destruct (truthy tal); [destruct HL as (? & -> & ->) | subst L]);
  (destruct (truthy rt); [destruct HR as (? & -> & ->) | subst R]);
  reflexivity.
Qed.

(** ** Number formatting *)

Lemma length_append (a b : string) :
  String.length (a ++ b) = (String.length a + String.length b)%nat.
Proof. induction a as [|c a IH]; simpl; [reflexivity | now rewrite IH]. Qed.

Lemma group_thousands_cons (c : ascii) (rest : string) :
  group_thousands (String c rest) =
  if (0 <? String.length rest)%nat && (String.length rest mod 3 =? 0)%nat
  then String c (String "," (group_thousands rest))
  else String c (group_thousands rest).
Proof. reflexivity. Qed.

(** Grouping peels the last three digits off behind a comma. *)
Lemma group_thousands_last3 (c x y z : ascii) (s : string) :
  group_thousands (String c s ++ String x (String y (String z EmptyString)))
  = group_thousands (String c s) ++ "," ++ String x (String y (String z EmptyString)).
Proof.
  revert c. induction s as [|c' s IH]; intros c; [reflexivity|].
  change (String c (String c' s) ++ String x (String y (String z EmptyString)))
    with (String c (String c' s ++ String x (String y (String z EmptyString)))).
  rewrite group_thousands_cons, IH, (group_thousands_cons c (String c' s)).
  rewrite length_append.
  set (n := String.length (String c' s)).
  assert (P : (0 <? n)%nat = true) by reflexivity.
  assert (Q : (0 <? n + String.length (String x (String y (String z EmptyString))))%nat = true)
    by (apply Nat.ltb_lt; simpl; lia).
  assert (M : ((n + String.length (String x (String y (String z EmptyString)))) mod 3
               = n mod 3)%nat)
    by (simpl String.length; apply (Nat.Div0.mod_add n 1 3)).
  clearbody n. rewrite P, Q, M. cbv beta iota delta [andb].
  destruct (n mod 3 =? 0)%nat; reflexivity.
Qed.

(** [int] reads back what [str] writes. *)
Lemma uint_value_pos (d : Decimal.uint) :
  forall p, uint_value (Z.pos p) d = Z.pos (Pos.of_uint_acc d p).
Proof.
  induction d; intros p; cbn [uint_value Pos.of_uint_acc]; try reflexivity;
    rewrite <- IHd; f_equal; lia.
Qed.

Lemma uint_value_0 (d : Decimal.uint) : uint_value 0 d = Z.of_N (Pos.of_uint d).
Proof.
  induction d; simpl; try reflexivity; try assumption; apply (uint_value_pos d).
Qed.

Ltac eval_char_tests :=
  repeat match goal with
  | |- context [digit_val ?c] =>
      let v := eval vm_compute in (digit_val c) in change (digit_val c) with v
  | |- context [is_space ?c] =>
      let v := eval vm_compute in (is_space c) in change (is_space c) with v
  | |- context [Ascii.eqb ?a ?b] =>
      let v := eval vm_compute in (Ascii.eqb a b) in change (Ascii.eqb a b) with v
  end; cbv iota.

Lemma more_digits_blanks (acc : Z) (post : string) :
  blanks post -> more_digits acc post = Ok (acc, post).
Proof.
  destruct post as [|p q]; [reflexivity|]. intros B.
  apply blanks_cons in B. destruct B as [B _].
  apply blank_not_special in B. destruct B as [D U].
  simpl. now rewrite D, U.
Qed.

Lemma scanned_digits_blanks (post : string) : blanks post -> scanned_digits post = 0%nat.
Proof.
  destruct post as [|p q]; [reflexivity|]. intros B.
  apply blanks_cons in B. destruct B as [B _].
  apply blank_not_special in B. destruct B as [D U].
  simpl. now rewrite D, U.
Qed.

Lemma more_digits_string_of_uint_then (d : Decimal.uint) (post : string) :
  blanks post ->
  forall acc,
    more_digits acc (NilEmpty.string_of_uint d ++ post) = Ok (uint_value acc d, post).
Proof.
  intros B. induction d; intros acc;
    [apply more_digits_blanks; exact B | ..];
    cbn [NilEmpty.string_of_uint append more_digits]; eval_char_tests; apply IHd.
Qed.

Lemma scanned_digits_string_of_uint (d : Decimal.uint) (post : string) :
  blanks post ->
  scanned_digits (NilEmpty.string_of_uint d ++ post) = Decimal.nb_digits d.
Proof.
  intros B. induction d;
    [apply scanned_digits_blanks; exact B | ..];
    cbn [NilEmpty.string_of_uint append scanned_digits Decimal.nb_digits];
    eval_char_tests; now rewrite IHd.
Qed.

Lemma string_of_uint_length (d : Decimal.uint) :
  String.length (NilEmpty.string_of_uint d) = Decimal.nb_digits d.
Proof. induction d; simpl; congruence. Qed.

(** A run of digits followed by blanks is read as its number when it is
    within the cap, and refused when it is not. *)
Lemma unsigned_literal_string_of_uint_then (d : Decimal.uint) (post : string) :
  d <> Decimal.Nil ->
  blanks post ->
  unsigned_literal (NilEmpty.string_of_uint d ++ post)
  = if (max_str_digits <? N.of_nat (Decimal.nb_digits d))%N
    then Raise ValueError
    else Ok (Z.of_N (Pos.of_uint d)).
Proof.
  intros N B. rewrite <- uint_value_0.
  pose proof (proj2 (all_space_blanks post) B) as A.
  pose proof (scanned_digits_string_of_uint d post B) as S.
  destruct d; try contradiction;
    cbn [NilEmpty.string_of_uint append] in *;
    unfold unsigned_literal; eval_char_tests;
    rewrite (more_digits_string_of_uint_then _ post B); cbn [bind snd fst];
    rewrite S, A;
    destruct (max_str_digits <? _)%N; reflexivity.
Qed.

Lemma decimal_shape (n : Z) :
  exists d,
    d <> Decimal.Nil
    /\ Z.of_N (Pos.of_uint d) = Z.abs n
    /\ decimal n = ((if (n <? 0)%Z then "-" else EmptyString)
                    ++ NilEmpty.string_of_uint d)%string
    /\ int_digits n = Decimal.nb_digits d.
Proof.
  unfold int_digits. destruct n as [|p|p].
  - exists (Decimal.D0 Decimal.Nil). repeat split. discriminate.
  - exists (Pos.to_uint p). split; [apply DecimalPos.Unsigned.to_uint_nonnil|].
    split; [now rewrite DecimalPos.Unsigned.of_to|].
    rewrite <- string_of_uint_length.
    unfold decimal. simpl. unfold NilZero.string_of_uint.
    pose proof (DecimalPos.Unsigned.to_uint_nonnil p).
    destruct (Pos.to_uint p); [contradiction | split; reflexivity ..].
  - exists (Pos.to_uint p). split; [apply DecimalPos.Unsigned.to_uint_nonnil|].
    split; [now rewrite DecimalPos.Unsigned.of_to|].
    rewrite <- string_of_uint_length.
    unfold decimal. simpl. unfold NilZero.string_of_uint.
    pose proof (DecimalPos.Unsigned.to_uint_nonnil p).
    destruct (Pos.to_uint p); [contradiction | split; reflexivity ..].
Qed.

Lemma lstrip_string_of_uint (d : Decimal.uint) (post : string) :
  d <> Decimal.Nil ->
  exists c r,
    (NilEmpty.string_of_uint d ++ post)%string = String c r
    /\ is_space c = false /\ Ascii.eqb c "+" = false /\ Ascii.eqb c "-" = false.
Proof.
  intros N. destruct d; try contradiction;
    cbn [NilEmpty.string_of_uint append]; eexists; eexists;
    (split; [reflexivity | repeat split]).
Qed.

(** [int] reads back what [str] writes, with blanks around it or not, as
    long as the digits are within the cap; beyond the cap it raises. *)
Lemma int_of_str_padded (n : Z) (pre post : string) :
  blanks pre -> blanks post ->
  int_of_str (pre ++ decimal n ++ post)
  = if (max_str_digits <? N.of_nat (int_digits n))%N then Raise ValueError else Ok n.
Proof.
  intros Bpre Bpost. unfold int_of_str. rewrite lstrip_blanks by exact Bpre.
  destruct (decimal_shape n) as (d & N & V & E & L). rewrite E, L.
  pose proof (unsigned_literal_string_of_uint_then d post N Bpost) as U.
  destruct (lstrip_string_of_uint d post N) as (c & r & S & Sp & Pl & Mi).
  destruct (n <? 0)%Z eqn:Hn.
  - change (("-" ++ NilEmpty.string_of_uint d) ++ post)%string
      with (String "-" (NilEmpty.string_of_uint d ++ post)).
    cbn [lstrip]. eval_char_tests. rewrite U.
    destruct (max_str_digits <? _)%N; [reflexivity|]. simpl.
    apply Z.ltb_lt in Hn. f_equal. lia.
  - change ((EmptyString ++ NilEmpty.string_of_uint d) ++ post)%string
      with (NilEmpty.string_of_uint d ++ post)%string.
    rewrite S in *. cbn [lstrip]. rewrite Sp, Pl, Mi, U.
    destruct (max_str_digits <? _)%N; [reflexivity|].
    apply Z.ltb_ge in Hn. f_equal. lia.
Qed.

Lemma append_empty_r (s : string) : (s ++ EmptyString)%string = s.
Proof. induction s as [|c s IH]; simpl; [reflexivity | now rewrite IH]. Qed.

Lemma int_of_str_decimal_capped (n : Z) :
  int_of_str (decimal n)
  = if (max_str_digits <? N.of_nat (int_digits n))%N then Raise ValueError else Ok n.
Proof.
  rewrite <- (int_of_str_padded n EmptyString EmptyString blanks_nil blanks_nil).
  change (EmptyString ++ decimal n ++ EmptyString)%string
    with (decimal n ++ EmptyString)%string.
  now rewrite append_empty_r.
Qed.

Lemma int_of_str_decimal (n : Z) :
  (N.of_nat (int_digits n) <= max_str_digits)%N -> int_of_str (decimal n) = Ok n.
Proof.
  intros C. rewrite int_of_str_decimal_capped.
  apply N.ltb_ge in C. now rewrite C.
Qed.

(** Two integers with one decimal writing are equal. *)
Lemma decimal_eq (a b : Z) : decimal a = decimal b -> a = b.
Proof.
  unfold decimal. intros H.
  assert (N : forall n, Z.to_int n <> Decimal.Pos Decimal.Nil
                        /\ Z.to_int n <> Decimal.Neg Decimal.Nil).
  { intros [|p|p]; simpl; split; try discriminate;
      intros [= E]; now apply (DecimalPos.Unsigned.to_uint_nonnil p). }
  apply (f_equal NilZero.int_of_string) in H.
  rewrite !NilZero.isi in H by apply N.
  injection H as H. now apply DecimalZ.to_int_inj.
Qed.

(** ** Lists of entries *)

Lemma enumerate_from_inv (entry : nat -> value -> result value) (items : list value) :
  forall (i : nat) (es : list value),
    enumerate_from entry i items = Ok es ->
    length es = length items
    /\ forall k x, nth_error items k = Some x ->
         exists e, entry (i + k)%nat x = Ok e /\ nth_error es k = Some e.
Proof.
  induction items as [|x items IH]; intros i es H; simpl in H.
  - injection H as <-. split; [reflexivity|]. intros [|k] y Hy; discriminate.
  - apply bind_ok_inv in H. destruct H as (e & He & H).
    apply bind_ok_inv in H. destruct H as (es' & Hes & H). injection H as <-.
    destruct (IH _ _ Hes) as (L & N). split; [simpl; now rewrite L|].
    intros [|k] y Hy; simpl in Hy.
    + injection Hy as <-. exists e. rewrite Nat.add_0_r. auto.
    + destruct (N k y Hy) as (e' & E' & N'). exists e'.
      rewrite Nat.add_succ_r. auto.
Qed.

Lemma enumerate_from_total (entry : nat -> value -> result value) (items : list value) :
  forall i : nat,
    (forall x, In x items -> forall j, succeeds (entry j x)) ->
    succeeds (enumerate_from entry i items).
Proof.
  induction items as [|x items IH]; intros i H; simpl.
  - now exists [].
  - destruct (H x (or_introl eq_refl) i) as (e & ->).
    destruct (IH (S i)) as (es & ->); [intros y Hy; apply H; now right|].
    now exists (e :: es).
Qed.

Lemma enumerate_from_raises (entry : nat -> value -> result value) (items : list value) :
  forall (i : nat) (x : value),
    In x items ->
    (forall j, raises (entry j x)) ->
    raises (enumerate_from entry i items).
Proof.
  induction items as [|y items IH]; intros i x Hin Hx; [contradiction|].
  simpl. destruct Hin as [-> | Hin].
  - destruct (Hx i) as (e & ->). now exists e.
  - destruct (entry i y) as [e|e]; [|now exists e]. simpl.
    destruct (IH (S i) x Hin Hx) as (e' & ->). now exists e'.
Qed.




Lemma recent_entry_total (i : nat) (track : value) :
  succeeds (recent_display track) -> succeeds (recent_entry i track).
Proof.
  intros (d & D). unfold recent_entry. rewrite D. simpl.
  destruct track; try discriminate. simpl. eexists. reflexivity.
Qed.


(** ** The client and the run *)

Lemma api_call_eq (method : string) (params : list (string * value)) (w : world) :
  lookup "method" params = None ->
  api_call method params w =
  (answer w method params, with_sent w (sent w ++ [query w method params])).
Proof. intros H. unfold api_call. rewrite H. reflexivity. Qed.

Lemma get_user_info_eq (u : string) (w : world) :
  get_user_info u w =
  (fetch_user_info w u,
   with_sent w (sent w ++ [query w "user.getinfo" [("user", VStr u)]])).
Proof.
  unfold get_user_info, io_bind, fetch_user_info. rewrite api_call_eq by reflexivity.
  destruct (answer w _ _); reflexivity.
Qed.

Lemma get_top_artists_eq (u : string) (w : world) :
  get_top_artists u "overall" 5 w =
  (fetch_top w u "user.gettopartists" "topartists" "artist",
   with_sent w (sent w ++ [query w "user.gettopartists"
      [("user", VStr u); ("period", VStr "overall"); ("limit", VInt 5)]])).
Proof.
  unfold get_top_artists, io_bind, fetch_top. rewrite api_call_eq by reflexivity.
  destruct (answer w _ _); reflexivity.
Qed.

Lemma get_top_tracks_eq (u : string) (w : world) :
  get_top_tracks u "overall" 5 w =
  (fetch_top w u "user.gettoptracks" "toptracks" "track",
   with_sent w (sent w ++ [query w "user.gettoptracks"
      [("user", VStr u); ("period", VStr "overall"); ("limit", VInt 5)]])).
Proof.
  unfold get_top_tracks, io_bind, fetch_top. rewrite api_call_eq by reflexivity.
  destruct (answer w _ _); reflexivity.
Qed.

Lemma get_top_albums_eq (u : string) (w : world) :
  get_top_albums u "overall" 5 w =
  (fetch_top w u "user.gettopalbums" "topalbums" "album",
   with_sent w (sent w ++ [query w "user.gettopalbums"
      [("user", VStr u); ("period", VStr "overall"); ("limit", VInt 5)]])).
Proof.
  unfold get_top_albums, io_bind, fetch_top. rewrite api_call_eq by reflexivity.
  destruct (answer w _ _); reflexivity.
Qed.

Lemma get_recent_tracks_eq (u : string) (w : world) :
  get_recent_tracks u 5 w =
  (fetch_recent w u,
   with_sent w (sent w ++ [query w "user.getrecenttracks"
      [("user", VStr u); ("limit", VInt 5)]])).
Proof.
  unfold get_recent_tracks, io_bind, fetch_recent. rewrite api_call_eq by reflexivity.
  destruct (answer w _ _); reflexivity.
Qed.

(** A run of [generate_music_yaml] returns the dump of the document of
    its answers, and changes nothing of the world but the two logs. *)
Lemma generate_music_yaml_eq (u : string) (w : world) :
  exists s o,
    generate_music_yaml u w =
    (let* doc := document w u in Ok (yaml_dump (VList doc)),
     with_stdout (with_sent w s) o).
Proof.
  unfold generate_music_yaml, document, fetched.
  cbv beta iota delta [io_bind print lift ret].
  rewrite get_user_info_eq.
  match goal with |- context [fetch_user_info ?w' u] =>
    change (fetch_user_info w' u) with (fetch_user_info w u) end.
  destruct (fetch_user_info w u) as [ui|e]; cbv beta iota delta [bind];
    [|do 2 eexists; reflexivity].
  rewrite get_top_artists_eq.
  match goal with |- context [fetch_top ?w' u ?m ?a ?b] =>
    change (fetch_top w' u m a b) with (fetch_top w u m a b) end.
  destruct (fetch_top w u _ _ _) as [ta|e]; cbv beta iota delta [bind];
    [|do 2 eexists; reflexivity].
  rewrite get_top_tracks_eq.
  match goal with |- context [fetch_top ?w' u "user.gettoptracks" ?a ?b] =>
    change (fetch_top w' u "user.gettoptracks" a b) with (fetch_top w u "user.gettoptracks" a b) end.
  destruct (fetch_top w u _ _ _) as [tt|e]; cbv beta iota delta [bind];
    [|do 2 eexists; reflexivity].
  rewrite get_top_albums_eq.
  match goal with |- context [fetch_top ?w' u "user.gettopalbums" ?a ?b] =>
    change (fetch_top w' u "user.gettopalbums" a b) with (fetch_top w u "user.gettopalbums" a b) end.
  destruct (fetch_top w u _ _ _) as [tal|e]; cbv beta iota delta [bind];
    [|do 2 eexists; reflexivity].
  rewrite get_recent_tracks_eq.
  match goal with |- context [fetch_recent ?w' u] =>
    change (fetch_recent w' u) with (fetch_recent w u) end.
  destruct (fetch_recent w u) as [rt|e]; cbv beta iota delta [bind];
    [|do 2 eexists; reflexivity].
  cbv beta iota delta [user_info top_artists top_tracks top_albums recent_tracks].
  destruct (build_music_data u ui ta tt tal rt); do 2 eexists; reflexivity.
Qed.

Lemma main_without_key (w : world) :
  truthy (LASTFM_API_KEY w) = false ->
  main w =
  (Ok 1%Z,
   with_stdout w
     ((stdout w ++ ["Error: LASTFM_API_KEY environment variable is not set."])
      ++ ["Get an API key at: https://www.last.fm/api/account/create"])%list).
Proof. intros H. unfold main. rewrite H. reflexivity. Qed.

Lemma main_with_key (w : world) :
  truthy (LASTFM_API_KEY w) = true ->
  exists s o,
    main w =
    match document w (LASTFM_USERNAME w) with
    | Ok doc =>
        (write_text (output_path w) (yaml_dump (VList doc)) ;;;
         print ("Successfully updated " ++ output_path w) ;;;
         print ("Last updated: " ++ now w) ;;;
         ret 0%Z) (with_stdout (with_sent w s) o)
    | Raise e => (Raise e, with_stdout (with_sent w s) o)
    end.
Proof.
  intros H. unfold main. rewrite H. simpl negb. cbv iota.
  destruct (generate_music_yaml_eq (LASTFM_USERNAME w) w) as (s & o & E).
  exists s, o. unfold io_bind at 1. rewrite E.
  destruct (document w (LASTFM_USERNAME w)); reflexivity.
Qed.

(** A run that returns has written the dump of its document, whole. *)
Lemma main_ok_inv (w w' : world) (status : Z) :
  main w = (Ok status, w') ->
  (status = 1%Z /\ truthy (LASTFM_API_KEY w) = false /\ files w' = files w
   /\ sent w' = sent w)
  \/ (status = 0%Z /\ truthy (LASTFM_API_KEY w) = true
      /\ exists doc,
           document w (LASTFM_USERNAME w) = Ok doc
           /\ files w' =
              (fun p => if String.eqb p (output_path w)
                        then Some (yaml_dump (VList doc)) else files w p)
           /\ exists o, stdout w' = (o ++ [("Last updated: " ++ now w)%string])%list).
Proof.
  intros H. destruct (truthy (LASTFM_API_KEY w)) eqn:K.
  - right. destruct (main_with_key w K) as (s & o & E). rewrite E in H. clear E.
    destruct (document w (LASTFM_USERNAME w)) as [doc|e]; [|discriminate].
    unfold io_bind, write_text, print, ret in H.
    change (can_open (with_stdout (with_sent w s) o)) with (can_open w) in H.
    change (disk_room (with_stdout (with_sent w s) o)) with (disk_room w) in H.
    destruct (can_open w (output_path w)); [|discriminate].
    destruct (disk_room w) as [room|].
    + destruct (String.length _ <=? room)%nat; [|discriminate].
      injection H as <- <-. repeat split; auto. exists doc.
      repeat split. eexists. reflexivity.
    + injection H as <- <-. repeat split; auto. exists doc.
      repeat split. eexists. reflexivity.
  - left. rewrite (main_without_key w K) in H. injection H as <- <-.
    repeat split; auto.
Qed.

(** A run whose fetches and transformation succeed, and whose output file
    can be written, returns 0. *)
Lemma main_returns (w : world) (doc : list value) :
  truthy (LASTFM_API_KEY w) = true ->
  document w (LASTFM_USERNAME w) = Ok doc ->
  can_open w (output_path w) = true ->
  disk_room w = None ->
  exists w', main w = (Ok 0%Z, w')
             /\ files w' (output_path w) = Some (yaml_dump (VList doc)).
Proof.
  intros K D O R. destruct (main_with_key w K) as (s & o & E). rewrite E, D.
  unfold io_bind, write_text, print, ret.
  change (can_open (with_stdout (with_sent w s) o)) with (can_open w).
  change (disk_room (with_stdout (with_sent w s) o)) with (disk_room w).
  rewrite O, R. eexists. split; [reflexivity|].
  simpl. now rewrite String.eqb_refl.
Qed.

(** A run that raises before the write leaves every file as it was. *)
Lemma main_raises_before_write (w : world) (e : exn) :
  truthy (LASTFM_API_KEY w) = true ->
  document w (LASTFM_USERNAME w) = Raise e ->
  exists w', main w = (Raise e, w') /\ files w' = files w.
Proof.
  intros K D. destruct (main_with_key w K) as (s & o & E). rewrite E, D.
  eexists. split; reflexivity.
Qed.


Lemma document_ext (w1 w2 : world) (u : string) :
  env_api_key w1 = env_api_key w2 ->
  (forall q, remote w1 q = remote w2 q) ->
  document w1 u = document w2 u.
Proof.
  intros K R.
  unfold document, fetched, fetch_user_info, fetch_top, fetch_recent, answer, query,
    LASTFM_API_KEY.
  rewrite K. now rewrite !R.
Qed.

Lemma key_truthy (w : world) (key : string) :
  env_api_key w = Some key -> key <> EmptyString -> truthy (LASTFM_API_KEY w) = true.
Proof.
  intros E N. unfold LASTFM_API_KEY. rewrite E. simpl.
  destruct (String.eqb_spec key EmptyString); [contradiction | reflexivity].
Qed.

(** ** The digits of a number, by thousands *)

Lemma digit_cases (k : Z) :
  (0 <= k < 10)%Z ->
  k = 0%Z \/ k = 1%Z \/ k = 2%Z \/ k = 3%Z \/ k = 4%Z \/ k = 5%Z \/ k = 6%Z
  \/ k = 7%Z \/ k = 8%Z \/ k = 9%Z.
Proof. lia. Qed.

Lemma uint_value_digit (k acc : Z) (rest : Decimal.uint) :
  (0 <= k < 10)%Z ->
  uint_value acc (digit_uint k rest) = uint_value (10 * acc + k) rest.
Proof.
  intros H. destruct (digit_cases k H) as [-> | [-> | [-> | [-> | [-> | [-> | [-> | [-> | [-> | ->]]]]]]]]];
    reflexivity.
Qed.

Lemma string_of_uint_digit (k : Z) (rest : Decimal.uint) :
  (0 <= k < 10)%Z ->
  NilEmpty.string_of_uint (digit_uint k rest)
  = String (digit_char k) (NilEmpty.string_of_uint rest).
Proof.
  intros H. destruct (digit_cases k H) as [-> | [-> | [-> | [-> | [-> | [-> | [-> | [-> | [-> | ->]]]]]]]]];
    reflexivity.
Qed.

Lemma uint_value_app (d d' : Decimal.uint) :
  forall acc, uint_value acc (uint_app d d') = uint_value (uint_value acc d) d'.
Proof. induction d; intros acc; simpl; auto. Qed.

Lemma string_of_uint_app (d d' : Decimal.uint) :
  NilEmpty.string_of_uint (uint_app d d')
  = (NilEmpty.string_of_uint d ++ NilEmpty.string_of_uint d')%string.
Proof. induction d; simpl; congruence. Qed.

Lemma to_uint_unorm (p : positive) : Decimal.unorm (Pos.to_uint p) = Pos.to_uint p.
Proof.
  rewrite <- DecimalPos.Unsigned.to_of, DecimalPos.Unsigned.of_to. reflexivity.
Qed.

Lemma unorm_app_to_uint (p : positive) (x : Decimal.uint) :
  Decimal.unorm (uint_app (Pos.to_uint p) x) = uint_app (Pos.to_uint p) x.
Proof.
  pose proof (to_uint_unorm p) as U.
  pose proof (DecimalPos.Unsigned.to_uint_nonzero p) as Z.
  pose proof (DecimalPos.Unsigned.to_uint_nonnil p) as N.
  destruct (Pos.to_uint p) as [|d|d|d|d|d|d|d|d|d|d]; try reflexivity.
  - contradiction.
  - exfalso. rewrite DecimalFacts.unorm_D0 in U.
    destruct d as [|d|d|d|d|d|d|d|d|d|d];
      try (now apply Z);
      match type of U with Decimal.unorm ?u = _ =>
        assert (NN : u <> Decimal.Nil) by discriminate;
        pose proof (DecimalFacts.nb_digits_unorm u NN) as L;
        rewrite U in L; simpl in L; lia
      end.
Qed.

(** The writing of a number of four digits or more is the writing of its
    thousands followed by its last three digits. *)
Lemma decimal_thousands (n : Z) :
  (1000 <= n)%Z ->
  decimal n = (decimal (n / 1000) ++ three_digits (n mod 1000))%string.
Proof.
  intros H.
  pose proof (Z.div_mod n 1000 ltac:(lia)) as DM.
  pose proof (Z.mod_pos_bound n 1000 ltac:(lia)) as RB.
  assert (Q : (1 <= n / 1000)%Z) by (apply Z.div_le_lower_bound; lia).
  remember (n / 1000)%Z as q eqn:Eq. remember (n mod 1000)%Z as r eqn:Er.
  clear Eq Er.
  destruct n as [|pn|pn]; try lia. destruct q as [|pq|pq]; try lia.
  set (x := digit_uint (r / 100)
              (digit_uint (r / 10 mod 10) (digit_uint (r mod 10) Decimal.Nil))).
  assert (B1 : (0 <= r / 100 < 10)%Z)
    by (split; [apply Z.div_pos; lia | apply Z.div_lt_upper_bound; lia]).
  assert (B2 : (0 <= r / 10 mod 10 < 10)%Z) by (apply Z.mod_pos_bound; lia).
  assert (B3 : (0 <= r mod 10 < 10)%Z) by (apply Z.mod_pos_bound; lia).
  assert (V : Z.of_N (Pos.of_uint (uint_app (Pos.to_uint pq) x)) = Z.pos pn).
  { rewrite <- uint_value_0, uint_value_app, uint_value_0,
      DecimalPos.Unsigned.of_to.
    unfold x. rewrite !uint_value_digit by assumption.
    cbn [uint_value Z.of_N].
    clear B1 B2 B3 x. Z.to_euclidean_division_equations. lia. }
  assert (T : Pos.to_uint pn = uint_app (Pos.to_uint pq) x).
  { rewrite <- (unorm_app_to_uint pq x), <- DecimalPos.Unsigned.to_of.
    destruct (Pos.of_uint (uint_app (Pos.to_uint pq) x)) as [|p'];
      simpl in V; [discriminate|]. injection V as ->. reflexivity. }
  unfold decimal. simpl Z.to_int. simpl NilZero.string_of_int.
  assert (S : forall p, NilZero.string_of_uint (Pos.to_uint p)
                        = NilEmpty.string_of_uint (Pos.to_uint p)).
  { intros p. pose proof (DecimalPos.Unsigned.to_uint_nonnil p).
    unfold NilZero.string_of_uint.
    destruct (Pos.to_uint p); [contradiction | reflexivity ..]. }
  rewrite !S, T, string_of_uint_app. f_equal.
  unfold x, three_digits. now rewrite !string_of_uint_digit.
Qed.

Lemma below_thousand_plain (n : Z) :
  (-1000 < n < 1000)%Z -> format_number (VInt n) = Ok (decimal n).
Proof.
  intros H.
  assert (A : forallb formats_plainly (seq 0 1000) = true) by (vm_compute; reflexivity).
  rewrite forallb_forall in A.
  specialize (A (Z.to_nat (Z.abs n))).
  assert (I : In (Z.to_nat (Z.abs n)) (seq 0 1000)) by (apply in_seq; lia).
  apply A in I. unfold formats_plainly in I.
  rewrite Z2Nat.id in I by lia.
  destruct (format_number (VInt (Z.abs n))) as [s|] eqn:E1; [|discriminate].
  destruct (format_number (VInt (- Z.abs n))) as [t|] eqn:E2; [|discriminate].
  apply andb_true_iff in I. destruct I as [I1 I2].
  apply String.eqb_eq in I1, I2. subst s t.
  destruct (Z.abs_spec n) as [[_ A']|[_ A']]; rewrite A' in *.
  - exact E1.
  - rewrite Z.opp_involutive in E2. exact E2.
Qed.

Lemma decimal_nonneg_cons (n : Z) :
  (0 <= n)%Z -> exists c s, decimal n = String c s.
Proof.
  intros H. destruct (decimal_shape n) as (d & N & _ & E & _).
  assert (Hn : (n <? 0)%Z = false) by (apply Z.ltb_ge; exact H).
  rewrite Hn in E. simpl in E. rewrite E.
  destruct d; [contradiction | simpl; eauto ..].
Qed.

Lemma format_number_thousands (n : Z) (s : string) :
  (1000 <= n)%Z ->
  format_number (VInt n) = Ok s ->
  exists s',
    format_number (VInt (n / 1000)) = Ok s'
    /\ s = (s' ++ "," ++ three_digits (n mod 1000))%string.
Proof.
  intros H F.
  assert (Q : (1 <= n / 1000)%Z) by (apply Z.div_le_lower_bound; lia).
  pose proof (decimal_thousands n H) as D.
  unfold format_number, py_format_comma, int_digits in *. simpl bind in *.
  rewrite (Z.abs_eq n) in F by lia. rewrite (Z.abs_eq (n / 1000)) by lia.
  destruct (max_str_digits <? N.of_nat (String.length (decimal n)))%N eqn:C;
    [discriminate|].
  injection F as <-.
  apply N.ltb_ge in C. rewrite D, length_append in C.
  assert (C' : (max_str_digits <? N.of_nat (String.length (decimal (n / 1000))))%N
               = false) by (apply N.ltb_ge; lia).
  rewrite C'. eexists. split; [reflexivity|].
  unfold format_comma.
  assert (Hn : (n <? 0)%Z = false) by (apply Z.ltb_ge; lia).
  assert (Hq : (n / 1000 <? 0)%Z = false) by (apply Z.ltb_ge; lia).
  rewrite Hn, Hq, D.
  destruct (decimal_nonneg_cons (n / 1000) ltac:(lia)) as (c & t & ->).
  apply group_thousands_last3.
Qed.

Lemma format_number_negative (n : Z) (s : string) :
  (n < 0)%Z ->
  format_number (VInt n) = Ok s ->
  exists s', format_number (VInt (- n)) = Ok s' /\ s = ("-" ++ s')%string.
Proof.
  intros H F.
  unfold format_number, py_format_comma, int_digits in *. simpl bind in *.
  rewrite Z.abs_opp.
  destruct (max_str_digits <? _)%N; [discriminate|]. injection F as <-.
  eexists. split; [reflexivity|]. unfold format_comma.
  assert (Hn : (n <? 0)%Z = true) by (apply Z.ltb_lt; lia).
  assert (Ho : (- n <? 0)%Z = false) by (apply Z.ltb_ge; lia).
  now rewrite Hn, Ho.
Qed.

Lemma format_number_int_succeeds (n : Z) :
  succeeds (format_number (VInt n))
  <-> (N.of_nat (int_digits n) <= max_str_digits)%N.
Proof.
  unfold format_number, py_format_comma. simpl bind.
  destruct (max_str_digits <? N.of_nat (int_digits n))%N eqn:C.
  - apply N.ltb_lt in C. split; [intros (s & E); discriminate | lia].
  - apply N.ltb_ge in C. split; [intros _; exact C | intros _; eexists; reflexivity].
Qed.

Lemma format_number_str_decimal (n : Z) :
  format_number (VStr (decimal n)) = format_number (VInt n).
Proof.
  unfold format_number. simpl py_int. rewrite int_of_str_decimal_capped.
  cbn [bind]. unfold py_format_comma.
  destruct (max_str_digits <? N.of_nat (int_digits n))%N eqn:C; cbn [bind];
    unfold py_format_comma; rewrite ?C; reflexivity.
Qed.

Lemma artist_entry_raises (i : nat) (fields : list (string * value)) (v : value) :
  lookup "playcount" fields = Some v ->
  ~ integer_like v ->
  raises (artist_entry i (VDict fields)).
Proof.
  intros P N. unfold artist_entry. simpl.
  destruct (lookup "name" fields) as [name|]; [|now exists KeyError].
  rewrite P. simpl. destruct (format_number_raises v N) as (e & ->). now exists e.
Qed.

Lemma build_raises_of_count (u : string) (src : sources) (v : value) :
  count_of src v ->
  ~ integer_like v ->
  raises (build_music_data u (user_info src) (top_artists src) (top_tracks src)
            (top_albums src) (recent_tracks src)).
Proof.
  intros C N. unfold build_music_data.
  destruct C as [(fields & -> & P) | (items & fields & -> & I & P)].
  - unfold stats_entry. simpl. rewrite P.
    destruct (format_number_raises v N) as (e & ->). now exists e.
  - destruct (stats_entry u (user_info src)) as [stats|e]; [|now exists e].
    assert (R : forall md,
               raises (append_category "Top Artists" artist_entry (VList items) md)).
    { intros md.
      destruct (enumerate_from_raises artist_entry items 0 (VDict fields) I)
        as (e & E); [intros j; eapply artist_entry_raises; eassumption|].
      exists e. unfold append_category, comprehension.
      destruct items as [|x items]; [contradiction|].
      cbn [truthy py_iter bind]. rewrite E. reflexivity. }
    cbn [bind].
    match goal with
    | |- context [append_category "Top Artists" artist_entry (VList items) ?md] =>
        destruct (R md) as (e & ->)
    end.
    now exists e.
Qed.

(** ** Main results *)



(** C3, on a recent track whose artist field is a plain string: the
    script asks the string for its [get] method, so no display string is
    made; the run raises AttributeError. *)
Theorem recent_display_plain_artist (fields : list (string * value)) (name : value)
    (artist : string) :
  lookup "name" fields = Some name ->
  lookup "artist" fields = Some (VStr artist) ->
  recent_display (VDict fields) = Raise AttributeError.
Proof. intros N A. unfold recent_display. simpl. rewrite N, A. reflexivity. Qed.

(** C4: with LASTFM_API_KEY unset or empty the process exits with status
    1, no request has been sent and no file has changed. *)
Theorem missing_key_exits (w : world) :
  env_api_key w = None \/ env_api_key w = Some EmptyString ->
  fst (run w) = 1%Z
  /\ sent (snd (run w)) = sent w
  /\ files (snd (run w)) = files w.
Proof.
  intros H. assert (K : truthy (LASTFM_API_KEY w) = false).
  { unfold LASTFM_API_KEY. destruct H as [-> | ->]; reflexivity. }
  unfold run. rewrite (main_without_key w K). repeat split.
Qed.

(** C5: two runs with the same configuration and the same answers from the
    service that both return 0 have written the same bytes, whatever their
    clocks, their earlier files and their earlier output; the time of the
    run only reaches the console. *)
Theorem output_deterministic (w1 w2 w1' w2' : world) :
  env_api_key w1 = env_api_key w2 ->
  env_username w1 = env_username w2 ->
  (forall q, remote w1 q = remote w2 q) ->
  main w1 = (Ok 0%Z, w1') ->
  main w2 = (Ok 0%Z, w2') ->
  files w1' (output_path w1) = files w2' (output_path w2)
  /\ (exists o, stdout w1' = (o ++ [("Last updated: " ++ now w1)%string])%list)
  /\ (exists o, stdout w2' = (o ++ [("Last updated: " ++ now w2)%string])%list).
Proof.
  intros K U R H1 H2.
  apply main_ok_inv in H1. apply main_ok_inv in H2.
  destruct H1 as [(? & _)|(_ & _ & d1 & D1 & F1 & O1)]; [discriminate|].
  destruct H2 as [(? & _)|(_ & _ & d2 & D2 & F2 & O2)]; [discriminate|].
  assert (E : LASTFM_USERNAME w1 = LASTFM_USERNAME w2)
    by (unfold LASTFM_USERNAME; now rewrite U).
  rewrite (document_ext w1 w2 _ K R), E, D2 in D1. injection D1 as ->.
  rewrite F1, F2, !String.eqb_refl. auto.
Qed.


(** C7: [format_number] groups the digits of an integer in threes with
    commas: 1234567 gives "1,234,567", 0 gives "0" and the str "42" gives
    "42".  Its input is first made an integer by [int], so that the str
    of an integer formats as the integer does.  An integer between -1000
    and 1000 formats as its plain writing; an integer from 1000 on
    formats as its thousands do, followed by a comma and its last three
    digits; a negative integer formats as a minus sign and what its
    opposite formats as.  An integer formats exactly when its writing has
    no more digits than the interpreter's cap. *)
Theorem format_number_groups :
  format_number (VInt 1234567) = Ok "1,234,567"
  /\ format_number (VInt 0) = Ok "0"
  /\ format_number (VStr "42") = Ok "42"
  /\ (forall num n, py_int num = Ok n -> format_number num = format_number (VInt n))
  /\ (forall n, format_number (VStr (decimal n)) = format_number (VInt n))
  /\ (forall n, (-1000 < n < 1000)%Z -> format_number (VInt n) = Ok (decimal n))
  /\ (forall n s,
        (1000 <= n)%Z ->
        format_number (VInt n) = Ok s ->
        exists s',
          format_number (VInt (n / 1000)) = Ok s'
          /\ s = (s' ++ "," ++ three_digits (n mod 1000))%string)
  /\ (forall n s,
        (n < 0)%Z ->
        format_number (VInt n) = Ok s ->
        exists s', format_number (VInt (- n)) = Ok s' /\ s = ("-" ++ s')%string)
  /\ (forall n,
        succeeds (format_number (VInt n))
        <-> (N.of_nat (int_digits n) <= max_str_digits)%N).
Proof.
  split; [reflexivity|]. split; [reflexivity|]. split; [reflexivity|].
  split; [intros num n H; unfold format_number; now rewrite H|].
  split; [exact format_number_str_decimal|].
  split; [exact below_thousand_plain|].
  split; [exact format_number_thousands|].
  split; [exact format_number_negative | exact format_number_int_succeeds].
Qed.

(** C8: [format_number] raises on every object that is not integer-like;
    and a run that meets an object that is not integer-like where it
    expects a play count (of the user, or of a top artist) ends with an
    exception: nothing is written and the exit status is 1. *)
Theorem format_failure_aborts :
  (forall v, ~ integer_like v -> raises (format_number v))
  /\ (forall w key src v,
        env_api_key w = Some key -> key <> EmptyString ->
        fetched w (LASTFM_USERNAME w) = Ok src ->
        count_of src v ->
        ~ integer_like v ->
        exists e w',
          main w = (Raise e, w') /\ files w' = files w /\ fst (run w) = 1%Z).
Proof.
  split; [exact format_number_raises|].
  intros w key src v K N F C I.
  destruct (build_raises_of_count (LASTFM_USERNAME w) src v C I) as (e & B).
  assert (D : document w (LASTFM_USERNAME w) = Raise e)
    by (unfold document; rewrite F; exact B).
  destruct (main_raises_before_write w e (key_truthy w key K N) D) as (w' & M & Fs).
  exists e, w'. repeat split; try assumption.
  unfold run. now rewrite M.
Qed.



End Properties.


Lemma missing_key_exits_witness :
  let w := sample_world_at None sample_remote "2024-05-01 12:00:00" (Some "old") in
  (env_api_key w = None \/ env_api_key w = Some EmptyString)
  /\ fst (run (lib := sample_library) w) = 1%Z
  /\ sent (snd (run (lib := sample_library) w)) = sent w
  /\ files (snd (run (lib := sample_library) w)) = files w.
Proof.
  intros w. split; [left; reflexivity|].
  apply (@missing_key_exits sample_library w). left. reflexivity.
Defined.

Lemma output_deterministic_witness :
  let w1 := sample_world in
  let w2 := sample_world_at (Some sample_key) sample_remote "2031-12-24 23:59:59" None in
  now w1 <> now w2
  /\ files (snd (main (lib := sample_library) w1)) (output_path w1)
     = files (snd (main (lib := sample_library) w2)) (output_path w2).
Proof.
  intros w1 w2. split; [discriminate|].
  apply (@output_deterministic sample_library w1 w2
           (snd (main (lib := sample_library) w1))
           (snd (main (lib := sample_library) w2))).
  - reflexivity.
  - reflexivity.
  - reflexivity.
  - vm_compute. reflexivity.
  - vm_compute. reflexivity.
Defined.

Lemma recent_display_plain_artist_witness :
  recent_display (lib := sample_library)
    (VDict [("name", VStr "Song"); ("artist", VStr "Band")])
  = Raise AttributeError.
Proof.
  apply (@recent_display_plain_artist sample_library
           [("name", VStr "Song"); ("artist", VStr "Band")] (VStr "Song") "Band");
    reflexivity.
Defined.




Lemma format_number_groups_witness :
  (1000 <= 1234567)%Z
  /\ exists s',
       format_number (VInt (1234567 / 1000)) = Ok s'
       /\ "1,234,567" = (s' ++ "," ++ three_digits (1234567 mod 1000))%string.
Proof.
  split; [lia|].
  destruct format_number_groups as (_ & _ & _ & _ & _ & _ & H & _).
  apply (H 1234567%Z "1,234,567"); [lia | reflexivity].
Defined.



Lemma format_failure_aborts_witness :
  let w := sample_world_at (Some sample_key) uncounted_remote "2024-05-01 12:00:00"
             (Some "old") in
  ~ integer_like (VStr "n/a")
  /\ exists e w',
       main (lib := sample_library) w = (Raise e, w')
       /\ files w' = files w
       /\ fst (run (lib := sample_library) w) = 1%Z.
Proof.
  intros w.
  assert (N : ~ integer_like (VStr "n/a")).
  { intros H. simpl in H. apply int_of_str_complete in H.
    - destruct H as (n & H). vm_compute in H. discriminate.
    - vm_compute. discriminate. }
  split; [exact N|].
  apply (proj2 (@format_failure_aborts sample_library) w sample_key
           {| user_info := VDict [("name", VStr "jaimeum19"); ("playcount", VStr "n/a")];
              top_artists := VList []; top_tracks := VList []; top_albums := VList [];
              recent_tracks := VList [] |}
           (VStr "n/a")).
  - reflexivity.
  - discriminate.
  - reflexivity.
  - left. eexists. split; reflexivity.
  - exact N.
Defined.

(** * Further properties *)

Section Further.

Context {lib : Library}.

(** ** The request of [api_call] *)

Lemma lookup_dict_set_same (k : string) (v : value) (d : list (string * value)) :
  lookup k (dict_set k v d) = Some v.
Proof.
  induction d as [|[k' v'] d IH]; simpl.
  - now rewrite String.eqb_refl.
  - destruct (String.eqb k k') eqn:E; simpl; rewrite E; [reflexivity | exact IH].
Qed.

Lemma lookup_dict_set_other (k k' : string) (v : value) (d : list (string * value)) :
  k' <> k -> lookup k' (dict_set k v d) = lookup k' d.
Proof.
  intros N. induction d as [|[k0 v0] d IH]; simpl.
  - destruct (String.eqb_spec k' k); [contradiction | reflexivity].
  - destruct (String.eqb_spec k k0) as [->|N0]; simpl.
    + destruct (String.eqb_spec k' k0); [contradiction | reflexivity].
    + destruct (String.eqb k' k0); [reflexivity | exact IH].
Qed.

(** X1: when the caller passes no parameter named [method], the request
    that [api_call] sends carries the method, the configured key and
    [format=json] (a caller's [api_key] or [format] is overwritten), every
    other parameter is sent as passed, exactly one request is logged and
    the result is the answer to that request.  A parameter named [method]
    is refused: the call raises TypeError and nothing is sent. *)
Theorem api_call_request (method : string) (params : list (string * value)) (w : world) :
  (lookup "method" params = None ->
   exists q,
     sent (snd (api_call method params w)) = (sent w ++ [q])%list
     /\ fst (api_call method params w) = remote w q
     /\ lookup "method" q = Some (VStr method)
     /\ lookup "api_key" q = Some (LASTFM_API_KEY w)
     /\ lookup "format" q = Some (VStr "json")
     /\ forall k, k <> "method" -> k <> "api_key" -> k <> "format" ->
          lookup k q = lookup k params)
  /\ (forall v, lookup "method" params = Some v ->
      api_call method params w = (Raise TypeError, w)).
Proof.
  split.
  - intros M. exists (query w method params).
    rewrite (api_call_eq method params w M). unfold answer, query, dict_update.
    simpl. repeat split.
    + rewrite lookup_dict_set_other by discriminate.
      rewrite lookup_dict_set_other by discriminate.
      apply lookup_dict_set_same.
    + rewrite lookup_dict_set_other by discriminate.
      apply lookup_dict_set_same.
    + apply lookup_dict_set_same.
    + intros k H1 H2 H3. now rewrite !lookup_dict_set_other.
  - intros v M. unfold api_call. now rewrite M.
Qed.

(** ** The requests of a run *)

Lemma generate_music_yaml_logs (u : string) (w : world) :
  sent (snd (generate_music_yaml u w))
  = (sent w ++ firstn (attempted (fetch_results w u)) (run_queries w u))%list
  /\ stdout (snd (generate_music_yaml u w))
     = (stdout w ++ [("Fetching data for user: " ++ u)%string])%list.
Proof.
  unfold generate_music_yaml, fetch_results.
  cbv beta iota delta [io_bind print lift ret].
  rewrite get_user_info_eq.
  match goal with |- context [fetch_user_info ?w' u] =>
    change (fetch_user_info w' u) with (fetch_user_info w u) end.
  destruct (fetch_user_info w u) as [ui|e]; [|split; reflexivity].
  rewrite get_top_artists_eq.
  match goal with |- context [fetch_top ?w' u "user.gettopartists" ?a ?b] =>
    change (fetch_top w' u "user.gettopartists" a b)
      with (fetch_top w u "user.gettopartists" a b) end.
  destruct (fetch_top w u "user.gettopartists" _ _) as [ta|e];
    [|split; [cbn [snd sent with_sent with_stdout attempted firstn run_queries];
              rewrite <- app_assoc; reflexivity | reflexivity]].
  rewrite get_top_tracks_eq.
  match goal with |- context [fetch_top ?w' u "user.gettoptracks" ?a ?b] =>
    change (fetch_top w' u "user.gettoptracks" a b)
      with (fetch_top w u "user.gettoptracks" a b) end.
  destruct (fetch_top w u "user.gettoptracks" _ _) as [tt|e];
    [|split; [cbn [snd sent with_sent with_stdout attempted firstn run_queries];
              rewrite <- !app_assoc; reflexivity | reflexivity]].
  rewrite get_top_albums_eq.
  match goal with |- context [fetch_top ?w' u "user.gettopalbums" ?a ?b] =>
    change (fetch_top w' u "user.gettopalbums" a b)
      with (fetch_top w u "user.gettopalbums" a b) end.
  destruct (fetch_top w u "user.gettopalbums" _ _) as [tal|e];
    [|split; [cbn [snd sent with_sent with_stdout attempted firstn run_queries];
              rewrite <- !app_assoc; reflexivity | reflexivity]].
  rewrite get_recent_tracks_eq.
  match goal with |- context [fetch_recent ?w' u] =>
    change (fetch_recent w' u) with (fetch_recent w u) end.
  destruct (fetch_recent w u) as [rt|e];
    [|split; [cbn [snd sent with_sent with_stdout attempted firstn run_queries];
              rewrite <- !app_assoc; reflexivity | reflexivity]].
  destruct (build_music_data u ui ta tt tal rt);
    (split; [cbn [snd sent with_sent with_stdout attempted firstn run_queries];
             rewrite <- !app_assoc; reflexivity | reflexivity]).
Qed.

Lemma main_after_generate (w : world) :
  truthy (LASTFM_API_KEY w) = true ->
  main w =
  match generate_music_yaml (LASTFM_USERNAME w) w with
  | (Ok yaml_content, w1) =>
      (write_text (output_path w) yaml_content ;;;
       print ("Successfully updated " ++ output_path w) ;;;
       print ("Last updated: " ++ now w) ;;;
       ret 0%Z) w1
  | (Raise e, w1) => (Raise e, w1)
  end.
Proof. intros K. unfold main. rewrite K. reflexivity. Qed.

Lemma main_sent (w : world) :
  truthy (LASTFM_API_KEY w) = true ->
  sent (snd (main w)) = sent (snd (generate_music_yaml (LASTFM_USERNAME w) w)).
Proof.
  intros K. rewrite (main_after_generate w K).
  destruct (generate_music_yaml (LASTFM_USERNAME w) w) as [[y|e] w1]; [|reflexivity].
  unfold io_bind, write_text, print, ret.
  destruct (can_open w1 (output_path w)); [|reflexivity].
  destruct (disk_room w1) as [room|]; [|reflexivity].
  destruct (String.length y <=? room)%nat; reflexivity.
Qed.

Lemma fetched_attempted (w : world) (u : string) (src : sources) :
  fetched w u = Ok src -> attempted (fetch_results w u) = 5%nat.
Proof.
  unfold fetched, fetch_results. intros H.
  destruct (fetch_user_info w u); [|discriminate].
  destruct (fetch_top w u "user.gettopartists" _ _); [|discriminate].
  destruct (fetch_top w u "user.gettoptracks" _ _); [|discriminate].
  destruct (fetch_top w u "user.gettopalbums" _ _); [|discriminate].
  destruct (fetch_recent w u); [|discriminate].
  reflexivity.
Qed.

(** X2: a run that returns 0 has sent exactly five requests, in the
    order user.getinfo, user.gettopartists, user.gettoptracks,
    user.gettopalbums, user.getrecenttracks, each for the configured
    user and with the key and [format=json], the three top lists with
    [period=overall] and all four lists with [limit=5]; and it has
    printed three lines: the user it fetches for, the path it wrote, and
    the time. *)
Theorem successful_run_log (w w' : world) :
  main w = (Ok 0%Z, w') ->
  sent w' = (sent w ++ run_queries w (LASTFM_USERNAME w))%list
  /\ stdout w' =
     (stdout w
      ++ [("Fetching data for user: " ++ LASTFM_USERNAME w)%string;
          ("Successfully updated " ++ output_path w)%string;
          ("Last updated: " ++ now w)%string])%list.
Proof.
  intros H. pose proof H as H0. apply main_ok_inv in H0.
  destruct H0 as [(? & _)|(_ & K & doc & D & _)]; [discriminate|].
  unfold document in D. apply bind_ok_inv in D. destruct D as (src & F & _).
  apply fetched_attempted in F.
  destruct (generate_music_yaml_logs (LASTFM_USERNAME w) w) as (S & O).
  rewrite F in S. split.
  - rewrite <- (f_equal snd H : snd (main w) = w'), (main_sent w K), S.
    reflexivity.
  - rewrite (main_after_generate w K) in H.
    destruct (generate_music_yaml (LASTFM_USERNAME w) w) as [[y|e] w1];
      [|discriminate].
    simpl in O. unfold io_bind, write_text, print, ret in H.
    destruct (can_open w1 (output_path w)); [|discriminate].
    destruct (disk_room w1) as [room|].
    + destruct (String.length y <=? room)%nat; [|discriminate].
      injection H as <-. simpl. rewrite O, <- !app_assoc. reflexivity.
    + injection H as <-. simpl. rewrite O, <- !app_assoc. reflexivity.
Qed.

(** X3: the requests of a run with a key are made one after the other
    and stop with the first fetch that raises: the log grows by the
    first [n] of the five queries, where [n] counts the fetches up to
    and including the first that raised (a failed request or a failed
    unwrap), so at least one and at most five. *)
Theorem requests_stop_at_first_failure (w : world) :
  truthy (LASTFM_API_KEY w) = true ->
  sent (snd (main w))
  = (sent w ++ firstn (attempted (fetch_results w (LASTFM_USERNAME w)))
                 (run_queries w (LASTFM_USERNAME w)))%list
  /\ (1 <= attempted (fetch_results w (LASTFM_USERNAME w)) <= 5)%nat.
Proof.
  intros K. split.
  - rewrite (main_sent w K). apply generate_music_yaml_logs.
  - unfold fetch_results.
    destruct (fetch_user_info w _); [|simpl; lia].
    destruct (fetch_top w _ "user.gettopartists" _ _); [|simpl; lia].
    destruct (fetch_top w _ "user.gettoptracks" _ _); [|simpl; lia].
    destruct (fetch_top w _ "user.gettopalbums" _ _); [|simpl; lia].
    destruct (fetch_recent w _); simpl; lia.
Qed.

(** X4: whatever a run does and however it ends, it leaves every file
    other than the output path as it was. *)
Theorem only_output_path_written (w : world) (p : string) :
  p <> output_path w ->
  files (snd (main w)) p = files w p.
Proof.
  intros N. destruct (truthy (LASTFM_API_KEY w)) eqn:K.
  - destruct (main_with_key w K) as (s & o & E). rewrite E. clear E.
    destruct (document w (LASTFM_USERNAME w)) as [doc|e]; [|reflexivity].
    unfold io_bind, write_text, print, ret.
    change (can_open (with_stdout (with_sent w s) o)) with (can_open w).
    change (disk_room (with_stdout (with_sent w s) o)) with (disk_room w).
    destruct (can_open w (output_path w)); [|reflexivity].
    apply String.eqb_neq in N.
    destruct (disk_room w) as [room|].
    + destruct (String.length _ <=? room)%nat; simpl; now rewrite N.
    + simpl. now rewrite N.
  - rewrite (main_without_key w K). reflexivity.
Qed.

Lemma fetched_raises_of_failed_request (w : world) (u : string)
    (q : list (string * value)) (e : exn) :
  In q (run_queries w u) -> remote w q = Raise e -> raises (fetched w u).
Proof.
  intros I R. unfold fetched.
  destruct (fetch_user_info w u) as [ui|e1] eqn:E1; [|now exists e1].
  destruct (fetch_top w u "user.gettopartists" "topartists" "artist") as [ta|e2] eqn:E2;
    [|now exists e2].
  destruct (fetch_top w u "user.gettoptracks" "toptracks" "track") as [tt|e3] eqn:E3;
    [|now exists e3].
  destruct (fetch_top w u "user.gettopalbums" "topalbums" "album") as [tal|e4] eqn:E4;
    [|now exists e4].
  destruct (fetch_recent w u) as [rt|e5] eqn:E5; [|now exists e5].
  exfalso. unfold run_queries in I. simpl in I.
  destruct I as [<- | [<- | [<- | [<- | [<- | []]]]]].
  - unfold fetch_user_info, answer in E1.
    change (query w "user.getinfo" [("user", VStr u)]) with
      [("user", VStr u); ("method", VStr "user.getinfo");
       ("api_key", LASTFM_API_KEY w); ("format", VStr "json")] in E1.
    rewrite R in E1. discriminate.
  - unfold fetch_top, answer in E2.
    change (query w "user.gettopartists"
              [("user", VStr u); ("period", VStr "overall"); ("limit", VInt 5)])
      with [("user", VStr u); ("period", VStr "overall"); ("limit", VInt 5);
            ("method", VStr "user.gettopartists"); ("api_key", LASTFM_API_KEY w);
            ("format", VStr "json")] in E2.
    rewrite R in E2. discriminate.
  - unfold fetch_top, answer in E3.
    change (query w "user.gettoptracks"
              [("user", VStr u); ("period", VStr "overall"); ("limit", VInt 5)])
      with [("user", VStr u); ("period", VStr "overall"); ("limit", VInt 5);
            ("method", VStr "user.gettoptracks"); ("api_key", LASTFM_API_KEY w);
            ("format", VStr "json")] in E3.
    rewrite R in E3. discriminate.
  - unfold fetch_top, answer in E4.
    change (query w "user.gettopalbums"
              [("user", VStr u); ("period", VStr "overall"); ("limit", VInt 5)])
      with [("user", VStr u); ("period", VStr "overall"); ("limit", VInt 5);
            ("method", VStr "user.gettopalbums"); ("api_key", LASTFM_API_KEY w);
            ("format", VStr "json")] in E4.
    rewrite R in E4. discriminate.
  - unfold fetch_recent, answer in E5.
    change (query w "user.getrecenttracks" [("user", VStr u); ("limit", VInt 5)])
      with [("user", VStr u); ("limit", VInt 5);
            ("method", VStr "user.getrecenttracks"); ("api_key", LASTFM_API_KEY w);
            ("format", VStr "json")] in E5.
    rewrite R in E5. discriminate.
Qed.

(** X5: when the service fails on any one of the five requests of a run
    with a key, the run ends with an exception and exit status 1, and no
    file has changed: there is no partial output. *)
Theorem failed_request_aborts (w : world) (q : list (string * value)) (e : exn) :
  truthy (LASTFM_API_KEY w) = true ->
  In q (run_queries w (LASTFM_USERNAME w)) ->
  remote w q = Raise e ->
  exists e' w',
    main w = (Raise e', w') /\ files w' = files w /\ fst (run w) = 1%Z.
Proof.
  intros K I R.
  destruct (fetched_raises_of_failed_request w _ q e I R) as (e' & F).
  assert (D : document w (LASTFM_USERNAME w) = Raise e')
    by (unfold document; now rewrite F).
  destruct (main_raises_before_write w e' K D) as (w' & M & Fs).
  exists e', w'. repeat split; try assumption. unfold run. now rewrite M.
Qed.


(** X15: a run exits with status 0 exactly when the key is set, the five
    fetches and the transformation succeed, and the output file can be
    opened and has room for the whole dump. *)
Theorem run_succeeds_iff (w : world) :
  fst (run w) = 0%Z
  <-> truthy (LASTFM_API_KEY w) = true
      /\ exists doc,
           document w (LASTFM_USERNAME w) = Ok doc
           /\ can_open w (output_path w) = true
           /\ forall room, disk_room w = Some room ->
                (String.length (yaml_dump (VList doc)) <= room)%nat.
Proof.
  unfold run. destruct (truthy (LASTFM_API_KEY w)) eqn:K.
  - destruct (main_with_key w K) as (s & o & E). rewrite E. clear E.
    destruct (document w (LASTFM_USERNAME w)) as [doc|e].
    + unfold io_bind, write_text, print, ret.
      change (can_open (with_stdout (with_sent w s) o)) with (can_open w).
      change (disk_room (with_stdout (with_sent w s) o)) with (disk_room w).
      destruct (can_open w (output_path w)).
      * destruct (disk_room w) as [room|].
        -- destruct (Nat.leb_spec (String.length (yaml_dump (VList doc))) room)
             as [L|L]; simpl.
           ++ split; [|reflexivity]. intros _. split; [reflexivity|].
              exists doc. repeat split. intros r [= <-]. exact L.
           ++ split; [discriminate|]. intros (_ & d & [= <-] & _ & R).
              specialize (R room eq_refl). lia.
        -- simpl. split; [|reflexivity]. intros _. split; [reflexivity|].
           exists doc. repeat split. intros r [=].
      * simpl. split; [discriminate|]. intros (_ & d & _ & C & _). discriminate.
    + simpl. split; [discriminate|]. intros (_ & d & D & _). discriminate.
  - rewrite (main_without_key w K). simpl. split; [discriminate|].
    intros (C & _). discriminate.
Qed.

(** X16: a run never sends a request without the key: every request it
    adds to the log carries the configured, non-empty key, [format=json]
    and the configured user. *)
Theorem requests_carry_key (w : world) (q : list (string * value)) :
  In q (sent (snd (main w))) ->
  In q (sent w)
  \/ exists key,
       env_api_key w = Some key /\ key <> EmptyString
       /\ lookup "api_key" q = Some (VStr key)
       /\ lookup "format" q = Some (VStr "json")
       /\ lookup "user" q = Some (VStr (LASTFM_USERNAME w)).
Proof.
  intros I. destruct (truthy (LASTFM_API_KEY w)) eqn:K.
  - rewrite (main_sent w K) in I.
    rewrite (proj1 (generate_music_yaml_logs (LASTFM_USERNAME w) w)) in I.
    apply in_app_or in I. destruct I as [I | I]; [now left | right].
    assert (I' : In q (run_queries w (LASTFM_USERNAME w))).
    { rewrite <- (firstn_skipn (attempted (fetch_results w (LASTFM_USERNAME w)))
                    (run_queries w (LASTFM_USERNAME w))).
      apply in_or_app. now left. }
    clear I. rename I' into I.
    unfold LASTFM_API_KEY in K. unfold run_queries, LASTFM_API_KEY in I.
    destruct (env_api_key w) as [key|]; [|discriminate].
    exists key. split; [reflexivity|]. split.
    { intros ->. discriminate. }
    simpl in I.
    destruct I as [<- | [<- | [<- | [<- | [<- | []]]]]]; repeat split.
  - rewrite (main_without_key w K) in I. now left.
Qed.

(** ** The entries of a category *)

Lemma artist_entry_leaf (i : nat) (x e : value) :
  artist_entry i x = Ok e -> ranked_leaf i e.
Proof.
  unfold artist_entry. intros H.
  apply bind_ok_inv in H. destruct H as (n & _ & H).
  apply bind_ok_inv in H. destruct H as (p & _ & H).
  apply bind_ok_inv in H. destruct H as (s & _ & H).
  apply bind_ok_inv in H. destruct H as (u & _ & H).
  injection H as <-. eexists. eexists. reflexivity.
Qed.

Lemma track_entry_leaf (i : nat) (x e : value) :
  track_entry i x = Ok e -> ranked_leaf i e.
Proof.
  unfold track_entry. intros H.
  apply bind_ok_inv in H. destruct H as (n & _ & H).
  apply bind_ok_inv in H. destruct H as (a & _ & H).
  apply bind_ok_inv in H. destruct H as (an & _ & H).
  apply bind_ok_inv in H. destruct H as (u & _ & H).
  injection H as <-. eexists. eexists. reflexivity.
Qed.

Lemma recent_entry_leaf (i : nat) (x e : value) :
  recent_entry i x = Ok e -> ranked_leaf i e.
Proof.
  unfold recent_entry. intros H.
  apply bind_ok_inv in H. destruct H as (d & _ & H).
  apply bind_ok_inv in H. destruct H as (u & _ & H).
  injection H as <-. eexists. eexists. reflexivity.
Qed.

Lemma ranked_leaf_key (i : nat) (e : value) :
  ranked_leaf i e -> entry_key e = Some (VStr (rank i)).
Proof. intros (v & u & ->). reflexivity. Qed.

Lemma ranked_leaf_leaf (i : nat) (e : value) : ranked_leaf i e -> leaf_entry e.
Proof. intros (v & u & ->). now exists (rank i), v, u. Qed.

Lemma enumerate_from_ranked (entry : nat -> value -> result value) :
  (forall i x e, entry i x = Ok e -> ranked_leaf i e) ->
  forall items i es,
    enumerate_from entry i items = Ok es ->
    map entry_key es = map (fun k => Some (VStr (rank k))) (seq i (length items))
    /\ Forall leaf_entry es.
Proof.
  intros L. induction items as [|x items IH]; intros i es H; simpl in H.
  - injection H as <-. split; [reflexivity | constructor].
  - apply bind_ok_inv in H. destruct H as (e & He & H).
    apply bind_ok_inv in H. destruct H as (es' & Hes & H). injection H as <-.
    destruct (IH _ _ Hes) as (K & F). apply L in He. split.
    + simpl. now rewrite K, (ranked_leaf_key i e He).
    + constructor; [eapply ranked_leaf_leaf; eassumption | assumption].
Qed.

Lemma top_category_entries (entry : nat -> value -> result value) :
  (forall i x e, entry i x = Ok e -> ranked_leaf i e) ->
  forall items es,
    comprehension entry (VList items) = Ok es ->
    length es = length items
    /\ map entry_key es = map (fun k => Some (VStr (rank k))) (seq 0 (length items))
    /\ forall k x, nth_error items k = Some x ->
         exists e, entry k x = Ok e /\ nth_error es k = Some e.
Proof.
  intros L items es H. unfold comprehension in H. simpl in H.
  destruct (enumerate_from_inv entry items 0 es H) as (Len & N).
  destruct (enumerate_from_ranked entry L items 0 es H) as (K & _).
  repeat split; assumption.
Qed.

(** X6: the three top lists are not cut: a list of [n] top artists
    (tracks, albums) that all format gives [n] entries, keyed "#1" to
    "#n", the k-th entry made from the k-th item. *)
Theorem top_lists_keep_every_item :
  (forall items es,
     comprehension artist_entry (VList items) = Ok es ->
     length es = length items
     /\ map entry_key es = map (fun k => Some (VStr (rank k))) (seq 0 (length items))
     /\ forall k x, nth_error items k = Some x ->
          exists e, artist_entry k x = Ok e /\ nth_error es k = Some e)
  /\ (forall items es,
        comprehension track_entry (VList items) = Ok es ->
        length es = length items
        /\ map entry_key es = map (fun k => Some (VStr (rank k))) (seq 0 (length items))
        /\ forall k x, nth_error items k = Some x ->
             exists e, track_entry k x = Ok e /\ nth_error es k = Some e)
  /\ (forall items es,
        comprehension album_entry (VList items) = Ok es ->
        length es = length items
        /\ map entry_key es = map (fun k => Some (VStr (rank k))) (seq 0 (length items))
        /\ forall k x, nth_error items k = Some x ->
             exists e, album_entry k x = Ok e /\ nth_error es k = Some e).
Proof.
  split; [|split].
  - apply top_category_entries. exact artist_entry_leaf.
  - apply top_category_entries. exact track_entry_leaf.
  - apply top_category_entries. exact track_entry_leaf.
Qed.

Lemma rank_eq (i j : nat) : rank i = rank j -> i = j.
Proof.
  unfold rank. intros H. injection H as H.
  apply decimal_eq in H. lia.
Qed.

Lemma NoDup_map_injective {A B : Type} (f : A -> B) (l : list A) :
  (forall a b, f a = f b -> a = b) -> NoDup l -> NoDup (map f l).
Proof.
  intros I. induction 1 as [|x l Hx Hl IH]; simpl; constructor; [|exact IH].
  intros Hin. apply in_map_iff in Hin. destruct Hin as (y & E & Hy).
  apply I in E. subst y. contradiction.
Qed.

Lemma ranked_keys_distinct (es : list value) (i n : nat) :
  map entry_key es = map (fun k => Some (VStr (rank k))) (seq i n) ->
  NoDup (map entry_key es).
Proof.
  intros ->. apply NoDup_map_injective; [|apply seq_NoDup].
  intros a b H. apply rank_eq. congruence.
Qed.

(** X7: two positions never share a rank label, so the keys of the
    entries of a category are pairwise different, in each of the four
    categories. *)
Theorem category_keys_distinct :
  (forall i j, rank i = rank j -> i = j)
  /\ (forall items es,
        comprehension artist_entry (VList items) = Ok es -> NoDup (map entry_key es))
  /\ (forall items es,
        comprehension track_entry (VList items) = Ok es -> NoDup (map entry_key es))
  /\ (forall items es,
        comprehension album_entry (VList items) = Ok es -> NoDup (map entry_key es))
  /\ (forall items es,
        recent_entries (VList items) = Ok es -> NoDup (map entry_key es)).
Proof.
  split; [exact rank_eq|].
  split; [|split; [|split]]; intros items es H.
  - destruct (top_category_entries artist_entry artist_entry_leaf items es H)
      as (_ & K & _). eapply ranked_keys_distinct; eassumption.
  - destruct (top_category_entries track_entry track_entry_leaf items es H)
      as (_ & K & _). eapply ranked_keys_distinct; eassumption.
  - destruct (top_category_entries album_entry track_entry_leaf items es H)
      as (_ & K & _). eapply ranked_keys_distinct; eassumption.
  - change (comprehension recent_entry (VList (firstn 5 items)) = Ok es) in H.
    destruct (top_category_entries recent_entry recent_entry_leaf _ es H)
      as (_ & K & _). eapply ranked_keys_distinct; eassumption.
Qed.

(** X8: of a list of recent tracks only the first five are looked at:
    when each of them has a display string the category is built,
    whatever follows them in the list, and it has as many entries as
    there are items, up to five, the k-th made from the k-th item. *)
Theorem recent_tracks_beyond_five_ignored (items : list value) :
  (forall t, In t (firstn 5 items) -> succeeds (recent_display t)) ->
  exists es,
    recent_entries (VList items) = Ok es
    /\ length es = Nat.min 5 (length items)
    /\ forall k t, (k < 5)%nat -> nth_error items k = Some t ->
         exists e, recent_entry k t = Ok e /\ nth_error es k = Some e.
Proof.
  intros W.
  assert (T : succeeds (enumerate_from recent_entry 0 (firstn 5 items))).
  { apply enumerate_from_total. intros x Hx j. apply recent_entry_total. auto. }
  destruct T as (es & E). exists es. split; [exact E|].
  apply enumerate_from_inv in E. destruct E as (L & N). split.
  - rewrite L. apply length_firstn.
  - intros k t Hk Ht. apply (N k t). rewrite nth_error_firstn.
    apply Nat.ltb_lt in Hk. now rewrite Hk.
Qed.


Lemma comprehension_raises_non_list (entry : nat -> value -> result value)
    (source : value) :
  (forall i s, entry i (VStr s) = Raise TypeError) ->
  truthy source = true ->
  (forall items, source <> VList items) ->
  comprehension entry source = Raise TypeError.
Proof.
  intros S T N. unfold comprehension.
  destruct source as [| b | n | f | s | items | d]; try reflexivity.
  - destruct s as [|c s]; [discriminate|]. simpl. now rewrite S.
  - now destruct (N items).
  - destruct d as [|[k v] d]; [discriminate|]. simpl. now rewrite S.
Qed.

(** X9: a source that is not empty and is not a list (a single mapping
    where a list was expected, a string, a number) is not taken as one
    item: the category is not built and the run raises TypeError for a
    top list; for the recent tracks it raises as well. *)
Theorem non_list_source_raises (source : value) :
  truthy source = true ->
  (forall items, source <> VList items) ->
  (forall name md, append_category name artist_entry source md = Raise TypeError)
  /\ (forall name md, append_category name track_entry source md = Raise TypeError)
  /\ (forall name md, append_category name album_entry source md = Raise TypeError)
  /\ raises (recent_entries source).
Proof.
  intros T N.
  assert (A : forall i s, artist_entry i (VStr s) = Raise TypeError) by reflexivity.
  assert (K : forall i s, track_entry i (VStr s) = Raise TypeError) by reflexivity.
  assert (R : forall i s, recent_entry i (VStr s) = Raise TypeError) by reflexivity.
  repeat split; try (intros name md; unfold append_category; rewrite T).
  - now rewrite (comprehension_raises_non_list artist_entry source A T N).
  - now rewrite (comprehension_raises_non_list track_entry source K T N).
  - now rewrite (comprehension_raises_non_list album_entry source K T N).
  - unfold recent_entries.
    destruct source as [| b | n | f | s | items | d];
      try (now exists TypeError).
    + destruct s as [|c s]; [discriminate|]. now exists TypeError.
    + now destruct (N items).
Qed.

Lemma enumerate_from_raise_inv (entry : nat -> value -> result value) (e : exn) :
  forall items i,
    enumerate_from entry i items = Raise e ->
    exists k x,
      nth_error items k = Some x /\ entry (i + k)%nat x = Raise e
      /\ forall j y, (j < k)%nat -> nth_error items j = Some y ->
           succeeds (entry (i + j)%nat y).
Proof.
  induction items as [|x items IH]; intros i H; simpl in H; [discriminate|].
  destruct (entry i x) as [a|e0] eqn:E.
  - simpl in H. destruct (enumerate_from entry (S i) items) as [es|e1] eqn:Es;
      [discriminate|].
    simpl in H. injection H as ->.
    destruct (IH (S i) Es) as (k & y & Hy & Ey & Before).
    exists (S k), y. rewrite Nat.add_succ_r. repeat split; try assumption.
    intros [|j] z Hj Hz; simpl in Hz.
    + injection Hz as <-. rewrite Nat.add_0_r. now exists a.
    + rewrite Nat.add_succ_r. apply (Before j z); [lia | assumption].
  - simpl in H. injection H as ->. exists 0%nat, x.
    rewrite Nat.add_0_r. repeat split; try assumption. intros j y Hj. lia.
Qed.

Lemma enumerate_from_raise_intro (entry : nat -> value -> result value) (e : exn) :
  forall items i k x,
    nth_error items k = Some x ->
    entry (i + k)%nat x = Raise e ->
    (forall j y, (j < k)%nat -> nth_error items j = Some y ->
       succeeds (entry (i + j)%nat y)) ->
    enumerate_from entry i items = Raise e.
Proof.
  induction items as [|z items IH]; intros i k x Hx Ex Before.
  - destruct k; discriminate.
  - destruct k as [|k]; simpl in Hx.
    + injection Hx as ->. rewrite Nat.add_0_r in Ex. simpl. now rewrite Ex.
    + destruct (Before 0%nat z) as (a & Ea); [lia | reflexivity |].
      rewrite Nat.add_0_r in Ea. simpl. rewrite Ea. simpl.
      rewrite (IH (S i) k x Hx); [reflexivity | now rewrite Nat.add_succ_comm |].
      intros j y Hj Hy. rewrite Nat.add_succ_comm.
      apply (Before (S j) y); [lia | exact Hy].
Qed.

(** X10: a category over a list fails exactly when one of its items
    fails to format, and the exception of the run is then that of the
    first such item in the list: items are formatted in order and
    nothing is kept of a list with a bad item. *)
Theorem first_bad_item_decides (entry : nat -> value -> result value)
    (items : list value) (e : exn) :
  comprehension entry (VList items) = Raise e
  <-> exists k x,
        nth_error items k = Some x /\ entry k x = Raise e
        /\ forall j y, (j < k)%nat -> nth_error items j = Some y ->
             succeeds (entry j y).
Proof.
  unfold comprehension. simpl. split.
  - intros H. apply enumerate_from_raise_inv in H. exact H.
  - intros (k & x & Hx & Ex & Before).
    apply (enumerate_from_raise_intro entry e items 0 k x Hx Ex Before).
Qed.

(** ** The shape of the document *)





(** ** The digits of a formatted number *)

Lemma strip_commas_group (s : string) :
  (forall c, In c (list_ascii_of_string s) -> Ascii.eqb c "," = false) ->
  strip_commas (group_thousands s) = s.
Proof.
  induction s as [|c s IH]; intros H; [reflexivity|].
  assert (Hc : Ascii.eqb c "," = false) by (apply H; now left).
  assert (Hs : strip_commas (group_thousands s) = s)
    by (apply IH; intros x Hx; apply H; now right).
  rewrite group_thousands_cons.
  destruct ((0 <? String.length s)%nat && (String.length s mod 3 =? 0)%nat);
    simpl; rewrite Hc, Hs; reflexivity.
Qed.

Lemma string_of_uint_comma_free (d : Decimal.uint) :
  forall c, In c (list_ascii_of_string (NilEmpty.string_of_uint d)) ->
    Ascii.eqb c "," = false.
Proof.
  induction d; simpl; intros c H; try contradiction;
    (destruct H as [<- | H]; [reflexivity | now apply IHd]).
Qed.

Lemma strip_commas_format_comma (n : Z) : strip_commas (format_comma n) = decimal n.
Proof.
  unfold format_comma.
  destruct (decimal_shape n) as (d & _ & _ & E & _).
  destruct (decimal_shape (- n)) as (d' & _ & _ & E' & _).
  destruct (n <? 0)%Z eqn:Hn.
  - assert (Hn' : (- n <? 0)%Z = false)
      by (apply Z.ltb_ge; apply Z.ltb_lt in Hn; lia).
    rewrite Hn' in E'. simpl in E'. rewrite E'.
    assert (D : decimal n = String "-" (decimal (- n))).
    { destruct n as [|p|p]; try discriminate. reflexivity. }
    rewrite D, E'. simpl.
    now rewrite strip_commas_group by apply string_of_uint_comma_free.
  - simpl in E. rewrite E.
    now rewrite strip_commas_group by apply string_of_uint_comma_free.
Qed.

(** X12: what [format_number] returns holds the digits of the integer of
    its input and nothing else but commas: without the commas it is the
    decimal writing of that integer, which [int] reads back. *)
Theorem format_number_keeps_digits (num : value) (s : string) :
  format_number num = Ok s ->
  exists n,
    py_int num = Ok n
    /\ strip_commas s = decimal n
    /\ int_of_str (strip_commas s) = Ok n.
Proof.
  unfold format_number. intros H.
  apply bind_ok_inv in H. destruct H as (n & P & H).
  unfold py_format_comma in H.
  destruct (max_str_digits <? N.of_nat (int_digits n))%N eqn:C; [discriminate|].
  injection H as <-.
  exists n. rewrite strip_commas_format_comma. repeat split; [exact P|].
  apply int_of_str_decimal. now apply N.ltb_ge.
Qed.

Lemma third_step (n : nat) :
  (S n / 3 = n / 3 + (if (S n mod 3 =? 0)%nat then 1 else 0))%nat.
Proof.
  pose proof (Nat.div_mod_eq (S n) 3) as A. pose proof (Nat.div_mod_eq n 3) as B.
  pose proof (Nat.mod_upper_bound n 3) as C.
  pose proof (Nat.mod_upper_bound (S n) 3) as D.
  destruct (Nat.eqb_spec (S n mod 3) 0) as [E|E]; lia.
Qed.

Lemma group_thousands_length (s : string) :
  String.length (group_thousands s)
  = (String.length s + (String.length s - 1) / 3)%nat.
Proof.
  induction s as [|c s IH]; [reflexivity|].
  rewrite group_thousands_cons.
  change (String.length (String c s)) with (S (String.length s)).
  replace (S (String.length s) - 1)%nat with (String.length s) by lia.
  destruct (String.length s) as [|m] eqn:L.
  - simpl. rewrite IH. reflexivity.
  - rewrite (third_step m). change (0 <? S m)%nat with true.
    cbv beta iota delta [andb].
    destruct (S m mod 3 =? 0)%nat;
      cbn [String.length]; rewrite IH;
      replace (S m - 1)%nat with m by lia; lia.
Qed.

(** X13: what [format_number] returns is the decimal writing of the
    integer of its input with one comma more for every full group of
    three digits behind the first digit: for [d] digits it is
    [(d - 1) / 3] characters longer than that writing, sign included. *)
Theorem format_number_length (num : value) (s : string) :
  format_number num = Ok s ->
  exists n,
    py_int num = Ok n
    /\ String.length s
       = (String.length (decimal n)
          + (String.length (decimal (Z.abs n)) - 1) / 3)%nat.
Proof.
  unfold format_number. intros H.
  apply bind_ok_inv in H. destruct H as (n & P & H).
  unfold py_format_comma in H.
  destruct (max_str_digits <? N.of_nat (int_digits n))%N; [discriminate|].
  injection H as <-.
  exists n. split; [exact P|]. unfold format_comma.
  destruct (n <? 0)%Z eqn:Hn.
  - apply Z.ltb_lt in Hn.
    assert (D : decimal n = String "-" (decimal (- n)))
      by (destruct n as [|p|p]; try lia; reflexivity).
    rewrite D. replace (Z.abs n) with (- n)%Z by lia.
    simpl. now rewrite group_thousands_length.
  - apply Z.ltb_ge in Hn. replace (Z.abs n) with n by lia.
    apply group_thousands_length.
Qed.

(** ** Blanks around a number *)

Ltac eval_chars :=
  repeat match goal with
  | |- context [digit_val ?c] =>
      let v := eval vm_compute in (digit_val c) in change (digit_val c) with v
  | |- context [is_space ?c] =>
      let v := eval vm_compute in (is_space c) in change (is_space c) with v
  | |- context [Ascii.eqb ?a ?b] =>
      let v := eval vm_compute in (Ascii.eqb a b) in change (Ascii.eqb a b) with v
  end; cbv iota.

(** X14: blanks around the decimal writing of an integer do not matter
    to [format_number], and neither does a plus sign before a number
    that is not negative: the str formats as the integer itself does,
    which beyond the cap on digits means that both raise ValueError. *)
Theorem format_number_ignores_blanks (n : Z) (pre post : string) :
  blanks pre ->
  blanks post ->
  format_number (VStr (pre ++ decimal n ++ post)) = format_number (VInt n)
  /\ ((0 <= n)%Z ->
      format_number (VStr (pre ++ "+" ++ decimal n ++ post)) = format_number (VInt n))
  /\ ((max_str_digits < N.of_nat (int_digits n))%N ->
      format_number (VInt n) = Raise ValueError).
Proof.
  intros Bpre Bpost. unfold format_number. simpl py_int. split; [|split].
  - rewrite int_of_str_padded by assumption. cbn [bind]. unfold py_format_comma.
    destruct (max_str_digits <? N.of_nat (int_digits n))%N eqn:C; cbn [bind];
      unfold py_format_comma; rewrite ?C; reflexivity.
  - intros P. unfold int_of_str. rewrite lstrip_blanks by exact Bpre.
    change ("+" ++ decimal n ++ post)%string with (String "+" (decimal n ++ post)).
    cbn [lstrip]. eval_chars. eval_chars.
    destruct (decimal_shape n) as (d & N & V & E & L). rewrite E.
    assert (Hn : (n <? 0)%Z = false) by (apply Z.ltb_ge; exact P).
    rewrite Hn.
    change ((EmptyString ++ NilEmpty.string_of_uint d) ++ post)%string
      with (NilEmpty.string_of_uint d ++ post)%string.
    rewrite (unsigned_literal_string_of_uint_then d post N Bpost), <- L.
    cbn [bind]. unfold py_format_comma.
    destruct (max_str_digits <? N.of_nat (int_digits n))%N eqn:C; cbn [bind];
      [reflexivity|].
    replace (Z.of_N (Pos.of_uint d)) with n by lia.
    cbn [bind]. unfold py_format_comma. rewrite ?C. reflexivity.
  - intros C. cbn [bind]. unfold py_format_comma.
    apply N.ltb_lt in C. now rewrite C.
Qed.

End Further.

Lemma api_call_request_witness :
  (exists q,
     sent (snd (api_call "user.getinfo"
                  [("user", VStr "jaimeum19"); ("format", VStr "xml")] sample_world))
     = (sent sample_world ++ [q])%list
     /\ lookup "format" q = Some (VStr "json")
     /\ lookup "user" q = Some (VStr "jaimeum19"))
  /\ api_call "user.getinfo"
       [("user", VStr "jaimeum19"); ("method", VStr "user.getfriends")] sample_world
     = (Raise TypeError, sample_world).
Proof.
  split.
  - destruct (proj1 (api_call_request "user.getinfo"
                       [("user", VStr "jaimeum19"); ("format", VStr "xml")]
                       sample_world) eq_refl)
      as (q & S & _ & _ & _ & F & O).
    exists q. split; [exact S|]. split; [exact F|].
    rewrite (O "user"); [reflexivity | discriminate | discriminate | discriminate].
  - apply (proj2 (api_call_request "user.getinfo"
                    [("user", VStr "jaimeum19"); ("method", VStr "user.getfriends")]
                    sample_world) (VStr "user.getfriends")).
    reflexivity.
Defined.

Lemma successful_run_log_witness :
  sent (snd (main (lib := sample_library) sample_world))
  = (sent sample_world ++ run_queries sample_world "jaimeum19")%list
  /\ stdout (snd (main (lib := sample_library) sample_world))
     = ["Fetching data for user: jaimeum19";
        "Successfully updated _data/music.yml";
        "Last updated: 2024-05-01 12:00:00"].
Proof.
  apply (@successful_run_log sample_library sample_world
           (snd (main (lib := sample_library) sample_world))).
  vm_compute. reflexivity.
Defined.

Lemma requests_stop_at_first_failure_witness :
  let w := sample_world_at (Some sample_key) failing_remote "2024-05-01 12:00:00"
             (Some "old") in
  truthy (LASTFM_API_KEY w) = true
  /\ attempted (fetch_results w (LASTFM_USERNAME w)) = 3%nat
  /\ sent (snd (main (lib := sample_library) w))
     = (sent w ++ firstn 3 (run_queries w (LASTFM_USERNAME w)))%list.
Proof.
  intros w. split; [reflexivity|]. split; [reflexivity|].
  exact (proj1 (@requests_stop_at_first_failure sample_library w eq_refl)).
Defined.

Lemma only_output_path_written_witness :
  "_data/other.yml" <> output_path sample_world
  /\ files (snd (main (lib := sample_library) sample_world)) "_data/other.yml"
     = files sample_world "_data/other.yml".
Proof.
  split; [discriminate|].
  apply (@only_output_path_written sample_library sample_world "_data/other.yml").
  discriminate.
Defined.

Lemma failed_request_aborts_witness :
  let w := sample_world_at (Some sample_key) failing_remote "2024-05-01 12:00:00"
             (Some "old") in
  exists e' w',
    main (lib := sample_library) w = (Raise e', w')
    /\ files w' = files w /\ fst (run (lib := sample_library) w) = 1%Z.
Proof.
  intros w.
  apply (@failed_request_aborts sample_library w
           [("user", VStr "jaimeum19"); ("period", VStr "overall"); ("limit", VInt 5);
            ("method", VStr "user.gettoptracks"); ("api_key", VStr sample_key);
            ("format", VStr "json")] RequestException).
  - reflexivity.
  - simpl. right. right. left. reflexivity.
  - reflexivity.
Defined.

Lemma top_lists_keep_every_item_witness :
  exists es,
    comprehension (artist_entry (lib := sample_library))
      (VList [sample_artist "Low" "4321"; sample_artist "Can" "99";
              sample_artist "Neu" "7"]) = Ok es
    /\ length es = 3%nat
    /\ map entry_key es = keyed ["#1"; "#2"; "#3"].
Proof.
  eexists. split; [reflexivity|].
  destruct (proj1 (@top_lists_keep_every_item sample_library)
              [sample_artist "Low" "4321"; sample_artist "Can" "99";
               sample_artist "Neu" "7"] _ eq_refl) as (L & K & _).
  split; [exact L | exact K].
Defined.

Lemma category_keys_distinct_witness :
  exists es,
    recent_entries (lib := sample_library) (VList sample_recent) = Ok es
    /\ NoDup (map entry_key es).
Proof.
  eexists. split; [reflexivity|].
  apply (proj2 (proj2 (proj2 (proj2 (@category_keys_distinct sample_library))))
           sample_recent).
  reflexivity.
Defined.

Lemma recent_tracks_beyond_five_ignored_witness :
  length ragged_recent = 8%nat
  /\ exists es,
       recent_entries (lib := sample_library) (VList ragged_recent) = Ok es
       /\ length es = 5%nat
       /\ forall k t, (k < 5)%nat -> nth_error ragged_recent k = Some t ->
            exists e, recent_entry (lib := sample_library) k t = Ok e
                      /\ nth_error es k = Some e.
Proof.
  split; [reflexivity|].
  apply (@recent_tracks_beyond_five_ignored sample_library ragged_recent).
  intros t H. simpl in H.
  destruct H as [<- | [<- | [<- | [<- | [<- | []]]]]]; eexists; reflexivity.
Defined.

Lemma non_list_source_raises_witness :
  append_category "Top Artists" (artist_entry (lib := sample_library))
    (sample_artist "Low" "4321") []
  = Raise TypeError.
Proof.
  apply (proj1 (@non_list_source_raises sample_library (sample_artist "Low" "4321")
                  eq_refl (fun items H => ltac:(discriminate H)))).
Defined.

Lemma first_bad_item_decides_witness :
  comprehension (artist_entry (lib := sample_library))
    (VList [sample_artist "Low" "4321"; VDict [("playcount", VStr "7")]; VNone])
  = Raise KeyError.
Proof.
  apply (proj2 (first_bad_item_decides (artist_entry (lib := sample_library))
                  [sample_artist "Low" "4321"; VDict [("playcount", VStr "7")]; VNone]
                  KeyError)).
  exists 1%nat, (VDict [("playcount", VStr "7")]).
  split; [reflexivity|]. split; [reflexivity|].
  intros j y Hj Hy. destruct j as [|j]; [|lia].
  injection Hy as <-. eexists. reflexivity.
Defined.


Lemma format_number_keeps_digits_witness :
  exists n,
    py_int (VStr " 1_234_567 ") = Ok n
    /\ strip_commas "1,234,567" = decimal n
    /\ int_of_str (strip_commas "1,234,567") = Ok n.
Proof.
  apply (format_number_keeps_digits (VStr " 1_234_567 ") "1,234,567").
  reflexivity.
Defined.

Lemma format_number_ignores_blanks_witness :
  format_number (VStr (" " ++ decimal 1234567 ++ " ")) = Ok "1,234,567".
Proof.
  assert (B : blanks " ") by (intros c [<- | []]; reflexivity).
  rewrite (proj1 (format_number_ignores_blanks 1234567 " " " " B B)).
  reflexivity.
Defined.

Lemma run_succeeds_iff_witness :
  fst (run (lib := sample_library) sample_world) = 0%Z.
Proof.
  apply (proj2 (@run_succeeds_iff sample_library sample_world)).
  split; [reflexivity|].
  eexists. split; [vm_compute; reflexivity|].
  split; [reflexivity|]. intros room H. discriminate H.
Defined.

Lemma requests_carry_key_witness :
  let q := [("user", VStr "jaimeum19"); ("limit", VInt 5);
            ("method", VStr "user.getrecenttracks"); ("api_key", VStr sample_key);
            ("format", VStr "json")] in
  In q (sent (snd (main (lib := sample_library) sample_world)))
  /\ lookup "api_key" q = Some (VStr sample_key).
Proof.
  intros q.
  assert (I : In q (sent (snd (main (lib := sample_library) sample_world))))
    by (vm_compute; do 4 right; left; reflexivity).
  split; [exact I|].
  destruct (@requests_carry_key sample_library sample_world q I)
    as [[] | (key & E & _ & A & _)].
  injection E as <-. exact A.
Defined.

Lemma format_number_length_witness :
  exists n,
    py_int (VInt (-1234567)) = Ok n
    /\ String.length "-1,234,567"
       = (String.length (decimal n)
          + (String.length (decimal (Z.abs n)) - 1) / 3)%nat.
Proof.
  apply (format_number_length (VInt (-1234567)) "-1,234,567"). reflexivity.
Defined.
